(** * 1-Stream Telegram bot: the status-diffing notifier

    A shallow embedding of [1-Stream-Telegram-Bot.py] and the properties of
    its polling loop.

    Conventions of the embedding.
    - A decoded JSON object is a Python [dict] with string keys: a
      [gmap string _].  Subscripting a missing key raises [KeyError].
      The leaves the program prints or compares ([name], [health_status],
      [license.status], the counters) are kept as text.
    - The program's effects are printing to the diagnostic stream, sending
      chat messages, assigning the global [prev_server_statuses] and talking
      to the dashboard over HTTP.  They are threaded through a state and
      exception monad [M]: an exception aborts the running coroutine but
      keeps every effect that happened before it, as in Python.
    - What the dashboard answers is not decided by the program: the answers
      given during the [n]-th call of [get_data] are [net n].  Transport
      errors raised inside [requests] or by the chat transport are outside
      the embedding. *)

From Stdlib Require Import ZArith String Ascii DecimalString.
From stdpp Require Import gmap strings list fin_maps.

Open Scope string_scope.
Open Scope list_scope.

(** ** Python values *)

Inductive exn : Type :=
  | KeyError (key : string)
  | TypeError (what : string).

Inductive result (A : Type) : Type :=
  | Raise (e : exn)
  | Return (a : A).
Arguments Raise {A} e.
Arguments Return {A} a.

(** [d[k]] on a dict with string keys. *)
Definition getitem {V : Type} (d : gmap string V) (k : string) : result V :=
  match d !! k with
  | Some v => Return v
  | None => Raise (KeyError k)
  end.

#[export] Instance result_ret : MRet result := fun _ a => Return a.
#[export] Instance result_bind : MBind result := fun _ _ f m =>
  match m with
  | Raise e => Raise e
  | Return a => f a
  end.

(** The newline of the f-strings, and [str()] of an integer. *)
Definition nl : string := String "010"%char EmptyString.
Definition str_of_int (z : Z) : string := NilZero.string_of_int (Z.to_int z).

(** [needle in haystack] on strings. *)
Definition contains (needle haystack : string) : bool :=
  match String.index 0 needle haystack with
  | Some _ => true
  | None => false
  end.

(** ** The data model *)

(** A server record of [/api/servers/index] and the payload of
    [/api/dashboard-stats]: [server['name']],
    [dashboard_stats['license']['status']]. *)
Abbreviation server := (gmap string string) (only parsing).
Abbreviation dashboard_stats := (gmap string (gmap string string)) (only parsing).

(** The dict [get_data] returns: [{"dashboard": ..., "servers": ...}].
    [get_data] returns [None] or that dict, so [if data:] is a match on an
    [option data]: [None] is falsy and a dict of two keys is truthy,
    whatever the keys hold. *)
Record data : Type := Data {
  dashboard : dashboard_stats;
  servers : list server
}.

(** An HTTP response as the program looks at it: [status_code], the outcome
    of [.json()] ([None] when it raises [ValueError]) and [.text]. *)
Record response (J : Type) : Type := Response {
  status_code : Z;
  json : option J;
  resp_text : string
}.
Arguments Response {J} _ _ _.
Arguments status_code {J} _.
Arguments json {J} _.
Arguments resp_text {J} _.

(** The response to the credentials POST: [.ok], [.url], [.text]. *)
Record login_response : Type := LoginResponse {
  ok : bool;
  url : string;
  login_text : string
}.

(** Everything the dashboard answers during one call of [get_data].
    [login_page] is [soup.find('input', {'name': '_token'})]: [None] when
    the page has no such input, [Some None] when the input has no [value]
    attribute, [Some (Some token)] otherwise. *)
Record exchange : Type := Exchange {
  login_page : option (option string);
  login_reply : login_response;
  dashboard_response : response dashboard_stats;
  servers_response : response (list server)
}.

(** A message handed to [context.bot.send_message]. *)
Record message : Type := Message {
  chat_id : Z;
  text : string;
  parse_mode : option string
}.

#[export] Instance message_eq_dec : EqDecision message.
Proof. solve_decision. Defined.

(** The process state: the global [prev_server_statuses] (the StatusMap),
    what was printed, what was sent, and how many times [get_data] ran. *)
Record state : Type := State {
  prev_server_statuses : gmap string string;
  stdout : list string;
  sent : list message;
  calls : nat
}.

Definition initial_state : state :=
  {| prev_server_statuses := ∅; stdout := []; sent := []; calls := 0 |}.

(** ** The monad of the coroutines *)

Definition M (A : Type) : Type := state → state * result A.

#[export] Instance M_ret : MRet M := fun _ a st => (st, Return a).
#[export] Instance M_bind : MBind M := fun _ _ f m st =>
  match m st with
  | (st', Raise e) => (st', Raise e)
  | (st', Return a) => f a st'
  end.

Definition raise {A : Type} (e : exn) : M A := fun st => (st, Raise e).

Definition lift {A : Type} (r : result A) : M A := fun st => (st, r).

Definition print (line : string) : M unit := fun st =>
  ({| prev_server_statuses := prev_server_statuses st;
      stdout := stdout st ++ [line];
      sent := sent st;
      calls := calls st |}, Return tt).

Definition send_message (chat : Z) (txt : string) (mode : option string)
  : M unit := fun st =>
  ({| prev_server_statuses := prev_server_statuses st;
      stdout := stdout st;
      sent := sent st ++ [Message chat txt mode];
      calls := calls st |}, Return tt).

(** An [if] without [else] that is not taken. *)
Definition pass : M unit := fun st => (st, Return tt).

Definition read_prev : M (gmap string string) := fun st =>
  (st, Return (prev_server_statuses st)).

(** [st] with the StatusMap replaced by [m]. *)
Definition with_statuses (m : gmap string string) (st : state) : state :=
  {| prev_server_statuses := m;
     stdout := stdout st;
     sent := sent st;
     calls := calls st |}.

Definition assign_prev (m : gmap string string) : M unit := fun st =>
  (with_statuses m st, Return tt).

(** ** Sample answers of the dashboard *)

Module Sample.

Definition alerts_chat : Z := 42.

Definition srv (name health_status : string) : gmap string string :=
  {[ "name" := name; "health_status" := health_status ]}.

Definition stats (license_status : string) : gmap string (gmap string string) :=
  {[ "connections" := {[ "total" := "10" ]};
     "streams" := {[ "total" := "3" ]};
     "users" := {[ "total" := "7" ]};
     "license" := {[ "status" := license_status; "product_name" := "1-Stream" ]} ]}.

Definition logged_in : login_response :=
  {| ok := true; url := "https://panel.example/dashboard"; login_text := "" |}.

Definition rejected : login_response :=
  {| ok := true; url := "https://panel.example/login"; login_text := "bad" |}.

(** Login passes and both GETs answer 200 with JSON. *)
Definition healthy (license_status : string) (current : list (gmap string string))
  : exchange :=
  {| login_page := Some (Some "tok");
     login_reply := logged_in;
     dashboard_response := Response 200 (Some (stats license_status)) "";
     servers_response := Response 200 (Some current) "" |}.

(** Login is rejected. *)
Definition login_failed : exchange :=
  {| login_page := Some (Some "tok");
     login_reply := rejected;
     dashboard_response := Response 200 (Some (stats "Active")) "";
     servers_response := Response 200 (Some []) "" |}.

(** Login passes, the servers GET answers 500. *)
Definition servers_down : exchange :=
  {| login_page := Some (Some "tok");
     login_reply := logged_in;
     dashboard_response := Response 200 (Some (stats "Active")) "";
     servers_response := Response 500 None "Server Error" |}.

(** Login passes, the dashboard GET answers 500. *)
Definition dashboard_down : exchange :=
  {| login_page := Some (Some "tok");
     login_reply := logged_in;
     dashboard_response := Response 500 None "Server Error";
     servers_response := Response 200 (Some [srv "A" "online"]) "" |}.

(** Login passes, the dashboard GET answers 200 with the JSON object [{}]. *)
Definition dashboard_empty : exchange :=
  {| login_page := Some (Some "tok");
     login_reply := logged_in;
     dashboard_response := Response 200 (Some ∅) "{}";
     servers_response := Response 200 (Some [srv "A" "online"]) "" |}.

Definition with_prev (m : gmap string string) : state :=
  {| prev_server_statuses := m; stdout := []; sent := []; calls := 0 |}.

(** A fleet of three servers, and what an earlier poll saw of it: "A" and
    "B" with another health, "C" not yet, and a "D" that is gone. *)
Definition fleet : list (gmap string string) :=
  [srv "A" "offline"; srv "B" "online"; srv "C" "online"].

Definition seen_before : gmap string string :=
  {[ "A" := "online"; "B" := "offline"; "D" := "online" ]}.

(** A login answered with an ok status on the login page again, the
    dashboard only named in the query string. *)
Definition bounced : exchange :=
  {| login_page := Some (Some "tok");
     login_reply :=
       {| ok := true;
          url := "https://panel.example/login?next=/dashboard";
          login_text := "Invalid credentials" |};
     dashboard_response := Response 200 (Some (stats "Active")) "";
     servers_response := Response 200 (Some []) "" |}.

(** A login page without the [_token] input. *)
Definition tokenless : exchange :=
  {| login_page := None;
     login_reply := logged_in;
     dashboard_response := Response 200 (Some (stats "Active")) "";
     servers_response := Response 200 (Some []) "" |}.

(** A record without [health_status]. *)
Definition unreported : gmap string string := {[ "name" := "B" ]}.

(** Two servers registered under one name. *)
Definition twins : list (gmap string string) :=
  [srv "A" "online"; srv "A" "offline"].

End Sample.

Section Bot.

(** [config.json] is not part of the sources: the alert channel is a
    parameter, and so is the behaviour of the dashboard. *)
Variable telegram_chat_id : Z.
Variable net : nat → exchange.

(** [requests.Session()] and the four requests made with it: the answers of
    this call are fixed by [net]; the call is counted. *)
Definition open_session : M exchange := fun st =>
  ({| prev_server_statuses := prev_server_statuses st;
      stdout := stdout st;
      sent := sent st;
      calls := S (calls st) |}, Return (net (calls st))).

(** ** [get_data] *)

(** [soup.find('input', {'name': '_token'})['value']] *)
Definition csrf_token_of (page : option (option string)) : M string :=
  match page with
  | None => raise (TypeError "'NoneType' object is not subscriptable")
  | Some None => raise (KeyError "value")
  | Some (Some token) => mret token
  end.

Definition get_data : M (option data) :=
  session ← open_session;
  csrf_token ← csrf_token_of (login_page session);
  (* credentials["_token"] = csrf_token; the POST carries it *)
  let response := login_reply session in
  if ok response && contains "dashboard" (url response) then
    print "Login successful!";;
    let dashboard_response := dashboard_response session in
    let servers_response := servers_response session in
    dashboard_data ←
      (if (status_code dashboard_response =? 200)%Z then
         match json dashboard_response with
         | Some decoded => mret decoded
         | None =>
             print "Error: Received non-JSON response";;
             print ("Raw response: " +:+ resp_text dashboard_response);;
             mret ∅
         end
       else
         print ("Error: Unable to retrieve dashboard stats, status code "
                +:+ str_of_int (status_code dashboard_response));;
         mret ∅);
    servers_data ←
      (if (status_code servers_response =? 200)%Z then
         match json servers_response with
         | Some decoded => mret decoded
         | None =>
             print "Error: Received non-JSON response";;
             print ("Raw response: " +:+ resp_text servers_response);;
             mret []
         end
       else
         print ("Error: Unable to retrieve servers info, status code "
                +:+ str_of_int (status_code servers_response));;
         mret []);
    mret (Some {| dashboard := dashboard_data; servers := servers_data |})
  else
    print "Login failed.";;
    print ("Raw response: " +:+ login_text response);;
    mret None.

(** ** The formatters *)

Definition format_dashboard_stats (stats : dashboard_stats) : result string :=
  connections ← getitem stats "connections";
  connections_total ← getitem connections "total";
  streams ← getitem stats "streams";
  streams_total ← getitem streams "total";
  users ← getitem stats "users";
  users_total ← getitem users "total";
  license ← getitem stats "license";
  license_status ← getitem license "status";
  license' ← getitem stats "license";
  product_name ← getitem license' "product_name";
  mret ("**Dashboard Stats**" +:+ nl
        +:+ "- Total Connections: " +:+ connections_total +:+ nl
        +:+ "- Total Streams: " +:+ streams_total +:+ nl
        +:+ "- Total Users: " +:+ users_total +:+ nl
        +:+ "- License Status: " +:+ license_status +:+ nl
        +:+ "- License Product Name: " +:+ product_name +:+ nl).

Definition format_server (s : server) : result string :=
  name ← getitem s "name";
  ip ← getitem s "ip";
  domain ← getitem s "domain";
  health_status ← getitem s "health_status";
  live_streams ← getitem s "live_streams";
  online_streams ← getitem s "online_streams";
  load_avg_1 ← getitem s "load_avg_1";
  load_avg_5 ← getitem s "load_avg_5";
  load_avg_15 ← getitem s "load_avg_15";
  connected_clients ← getitem s "connected_clients";
  version ← getitem s "version";
  mret (nl +:+ "**" +:+ name +:+ "**" +:+ nl
        +:+ "- IP: " +:+ ip +:+ nl
        +:+ "- Domain: " +:+ domain +:+ nl
        +:+ "- Status: " +:+ health_status +:+ nl
        +:+ "- Live Streams: " +:+ live_streams +:+ nl
        +:+ "- Online Streams: " +:+ online_streams +:+ nl
        +:+ "- Load (1/5/15): " +:+ load_avg_1 +:+ "/" +:+ load_avg_5
        +:+ "/" +:+ load_avg_15 +:+ nl
        +:+ "- Connected Clients: " +:+ connected_clients +:+ nl
        +:+ "- Version: " +:+ version +:+ nl).

(** The [for] loop of [format_servers_info], [formatted_servers] being the
    accumulator. *)
Fixpoint format_servers_loop (servers_info : list server)
  (formatted_servers : string) : result string :=
  match servers_info with
  | [] => mret formatted_servers
  | s :: rest =>
      block ← format_server s;
      format_servers_loop rest (formatted_servers +:+ block)
  end.

Definition format_servers_info (servers_info : list server) : result string :=
  format_servers_loop servers_info (nl +:+ "**Servers Info**" +:+ nl).

(** ** The handlers *)

Definition markdown : option string := Some "Markdown".

Definition send_report (effective_chat_id : Z) : M unit :=
  data ← get_data;
  match data with
  | Some d =>
      dashboard_stats ← lift (format_dashboard_stats (dashboard d));
      servers_info ← lift (format_servers_info (servers d));
      let message := dashboard_stats +:+ servers_info in
      send_message effective_chat_id message markdown
  | None => pass
  end.

Definition license_alert_text : string :=
  "⚠️ License status is not active! Please check immediately.".

Definition notify_if_license_inactive : M unit :=
  data ← get_data;
  (* if data and data['dashboard']['license']['status'] != 'Active': *)
  match data with
  | None => pass
  | Some d =>
      license ← lift (getitem (dashboard d) "license");
      status ← lift (getitem license "status");
      if negb (String.eqb status "Active") then
        send_message telegram_chat_id license_alert_text markdown
      else pass
  end.

Definition degraded_text (server_name health_status : string) : string :=
  "⚠️ Server **" +:+ server_name +:+ "** is currently **"
  +:+ health_status +:+ "**.".

Definition recovered_text (server_name health_status : string) : string :=
  "✅ Server **" +:+ server_name +:+ "** is back **"
  +:+ health_status +:+ "**.".

(** The body of the [for server in servers] loop of [notify_server_status]:
    [current_statuses] is the dict under construction. *)
Definition notify_one (s : server) (current_statuses : gmap string string)
  : M (gmap string string) :=
  server_name ← lift (getitem s "name");
  health_status ← lift (getitem s "health_status");
  let current_statuses := <[server_name := health_status]> current_statuses in
  prev ← read_prev;
  ((if bool_decide (is_Some (prev !! server_name))
      && negb (bool_decide (prev !! server_name = Some health_status))
   then
     if negb (String.eqb health_status "online") then
       send_message telegram_chat_id
         (degraded_text server_name health_status) markdown
     else if String.eqb health_status "online" then
       send_message telegram_chat_id
         (recovered_text server_name health_status) markdown
     else pass
   else pass) : M unit);;
  mret current_statuses.

Fixpoint notify_loop (servers : list server)
  (current_statuses : gmap string string) : M (gmap string string) :=
  match servers with
  | [] => mret current_statuses
  | s :: rest =>
      current_statuses ← notify_one s current_statuses;
      notify_loop rest current_statuses
  end.

(** The Status Differ: what [notify_server_status] does with the fetched
    server list, from [current_statuses = {}] to the assignment of the
    global. *)
Definition status_differ (servers : list (gmap string string)) : M unit :=
  current_statuses ← notify_loop servers ∅;
  assign_prev current_statuses.

Definition notify_server_status : M unit :=
  data ← get_data;
  match data with
  | Some d => status_differ (servers d)
  | None => pass
  end.

Definition poll_status : M unit :=
  notify_if_license_inactive;;
  notify_server_status.

Definition start (effective_chat_id : Z) : M unit :=
  send_message effective_chat_id
    "Welcome to the Server Dashboard Bot! Type /status to get the latest stats."
    None.

(** ** The scheduler

    [main] registers [start] and [send_report] as command handlers and
    [poll_status] as a repeating job; [run_polling] then serves one event
    after the other on a single loop.  The library reports what a handler
    or a job raises and goes on with the next event. *)
Inductive event : Type :=
  | Tick
  | StatusCommand (effective_chat_id : Z)
  | StartCommand (effective_chat_id : Z).

Definition handle (e : event) : M unit :=
  match e with
  | Tick => poll_status
  | StatusCommand chat => send_report chat
  | StartCommand chat => start chat
  end.

Definition run (events : list event) (st : state) : state :=
  fold_left (fun st e => fst (handle e st)) events st.

(** ** Vocabulary of the specification *)

(** Login succeeded: the guard at the head of [get_data]'s success branch. *)
Definition login_succeeds (x : exchange) : bool :=
  ok (login_reply x) && contains "dashboard" (url (login_reply x)).

(** A fetch returned well-formed structured data: status 200 and a body
    that decodes. *)
Definition well_formed {J : Type} (r : response J) : Prop :=
  status_code r = 200%Z ∧ is_Some (json r).

(** The decoded body of a well-formed fetch, [default] for any other. *)
Definition decoded_or {J : Type} (default : J) (r : response J) : J :=
  if (status_code r =? 200)%Z then from_option id default (json r)
  else default.

(** What [get_data] prints about a fetch that is not well-formed; [what] is
    "dashboard stats" or "servers info". *)
Definition fetch_error_lines {J : Type} (what : string) (r : response J)
  : list string :=
  if (status_code r =? 200)%Z then
    match json r with
    | Some _ => []
    | None => ["Error: Received non-JSON response";
               "Raw response: " +:+ resp_text r]
    end
  else ["Error: Unable to retrieve " +:+ what +:+ ", status code "
        +:+ str_of_int (status_code r)].

(** [st] after a call of [get_data] that printed [lines]. *)
Definition fetched (st : state) (lines : list string) : state :=
  {| prev_server_statuses := prev_server_statuses st;
     stdout := stdout st ++ lines;
     sent := sent st;
     calls := S (calls st) |}.

(** [st] after [msgs] were sent. *)
Definition posted (st : state) (msgs : list message) : state :=
  {| prev_server_statuses := prev_server_statuses st;
     stdout := stdout st;
     sent := sent st ++ msgs;
     calls := calls st |}.

(** The three alerts, as they reach the alert channel. *)
Definition degraded_alert (name status : string) : message :=
  Message telegram_chat_id (degraded_text name status) markdown.

Definition recovered_alert (name status : string) : message :=
  Message telegram_chat_id (recovered_text name status) markdown.

Definition license_alert : message :=
  Message telegram_chat_id license_alert_text markdown.

(** A server record has the two keys the Differ reads. *)
Definition is_server_record (s : gmap string string) : Prop :=
  is_Some (s !! "name") ∧ is_Some (s !! "health_status").

(** The rule of the Status Differ for one server of [current], in the
    words of the specification: what is emitted for [s] against
    [previous].  The two alerts are written out as they reach the alert
    channel: the DEGRADED alert names the server and carries its new
    health, the RECOVERED alert names the server and says "online". *)
Inductive emits (previous : gmap string string) (s : gmap string string)
  : list message → Prop :=
  | emits_degraded name old new :
      s !! "name" = Some name → s !! "health_status" = Some new →
      previous !! name = Some old → old ≠ new → new ≠ "online" →
      emits previous s
        [{| chat_id := telegram_chat_id;
            text := "⚠️ Server **" +:+ name +:+ "** is currently **"
                    +:+ new +:+ "**.";
            parse_mode := Some "Markdown" |}]
  | emits_recovered name old new :
      s !! "name" = Some name → s !! "health_status" = Some new →
      previous !! name = Some old → old ≠ new → new = "online" →
      emits previous s
        [{| chat_id := telegram_chat_id;
            text := "✅ Server **" +:+ name +:+ "** is back **online**.";
            parse_mode := Some "Markdown" |}]
  | emits_first_sighting name new :
      s !! "name" = Some name → s !! "health_status" = Some new →
      previous !! name = None →
      emits previous s []
  | emits_unchanged name new :
      s !! "name" = Some name → s !! "health_status" = Some new →
      previous !! name = Some new →
      emits previous s [].

(** The same rule as a function. *)
Definition transition_alerts (previous : gmap string string)
  (s : gmap string string) : list message :=
  match s !! "name", s !! "health_status" with
  | Some name, Some new =>
      match previous !! name with
      | Some old =>
          if decide (old = new) then []
          else if decide (new = "online") then [recovered_alert name new]
          else [degraded_alert name new]
      | None => []
      end
  | _, _ => []
  end.

(** The names occurring in a server list, and the health values reported
    under one name, in the order of the list. *)
Definition names (current : list (gmap string string)) : gset string :=
  list_to_set (omap (λ s, s !! "name") current).

Definition statuses_named (name : string) (current : list (gmap string string))
  : list string :=
  omap (λ s, if decide (s !! "name" = Some name) then s !! "health_status"
             else None) current.

(** What the loop of [notify_server_status] leaves in [current_statuses]
    when no record lacks a key. *)
Definition record_status (current_statuses : gmap string string)
  (s : gmap string string) : gmap string string :=
  match s !! "name", s !! "health_status" with
  | Some name, Some health_status => <[name := health_status]> current_statuses
  | _, _ => current_statuses
  end.

Definition status_map (current : list (gmap string string))
  : gmap string string :=
  fold_left record_status current ∅.

(** The health values agree among the records that share a name. *)
Definition agreeing (current : list (gmap string string)) : Prop :=
  ∀ s1 s2 name, s1 ∈ current → s2 ∈ current →
    s1 !! "name" = Some name → s2 !! "name" = Some name →
    s1 !! "health_status" = s2 !! "health_status".

(** [m] is a DEGRADED or a RECOVERED alert. *)
Definition is_transition_alert (m : message) : Prop :=
  ∃ name status,
    m = degraded_alert name status ∨ m = recovered_alert name status.


(** A fetch answered by [x] gets past login and shows the license status
    [status]. *)
Definition observes_license (x : exchange) (status : string) : Prop :=
  ∃ token license,
    login_page x = Some (Some token) ∧
    login_succeeds x = true ∧
    decoded_or ∅ (dashboard_response x) !! "license" = Some license ∧
    license !! "status" = Some status.

(** A fetch answered by [x] fails at login: the Fetcher prints
    ["Login failed."] and returns [None]. *)
Definition fails_login (x : exchange) : Prop :=
  (∃ token, login_page x = Some (Some token)) ∧ login_succeeds x = false.

(** A fetch answered by [x] gets past login and hands [current] to the
    Differ. *)
Definition delivers (x : exchange) (current : list (gmap string string))
  : Prop :=
  (∃ token, login_page x = Some (Some token)) ∧
  login_succeeds x = true ∧
  decoded_or [] (servers_response x) = current.

(** The keys [format_servers_info] reads of a server record, in the order
    of the f-string. *)
Definition server_keys : list string :=
  ["name"; "ip"; "domain"; "health_status"; "live_streams"; "online_streams";
   "load_avg_1"; "load_avg_5"; "load_avg_15"; "connected_clients"; "version"].

(** A server record that [format_servers_info] can print. *)
Definition printable (s : gmap string string) : Prop :=
  Forall (λ k, is_Some (s !! k)) server_keys.

(** A dashboard payload that [format_dashboard_stats] can print: the five
    leaves the f-string reads. *)
Definition complete_stats (stats : gmap string (gmap string string)) : Prop :=
  (∃ connections, stats !! "connections" = Some connections ∧
                  is_Some (connections !! "total")) ∧
  (∃ streams, stats !! "streams" = Some streams ∧
              is_Some (streams !! "total")) ∧
  (∃ users, stats !! "users" = Some users ∧ is_Some (users !! "total")) ∧
  (∃ license, stats !! "license" = Some license ∧
              is_Some (license !! "status") ∧
              is_Some (license !! "product_name")).

(** The first line of the servers section. *)
Definition servers_header : string := nl +:+ "**Servers Info**" +:+ nl.

(** A call returned, it did not raise. *)
Definition returns {A : Type} (r : result A) : Prop := ∃ a, r = Return a.

(** What the Differ may send: a DEGRADED alert with a health other than
    "online", or a RECOVERED alert saying "online". *)
Definition proper_alert (m : message) : Prop :=
  ∃ name status,
    (status ≠ "online" ∧ m = degraded_alert name status) ∨
    m = recovered_alert name "online".

(** The chat a command came from; the timer has none. *)
Definition requester (e : event) : option Z :=
  match e with
  | Tick => None
  | StatusCommand chat => Some chat
  | StartCommand chat => Some chat
  end.

(** The calls of [get_data] an event makes at least and at most. *)
Definition fewest_fetches (e : event) : nat :=
  match e with
  | Tick => 1
  | StatusCommand _ => 1
  | StartCommand _ => 0
  end.

Definition most_fetches (e : event) : nat :=
  match e with
  | Tick => 2
  | StatusCommand _ => 1
  | StartCommand _ => 0
  end.

(** *** [get_data] case by case *)

Lemma get_data_no_token_input st :
  login_page (net (calls st)) = None →
  get_data st =
  (fetched st [], Raise (TypeError "'NoneType' object is not subscriptable")).
Proof.
  intros H. unfold get_data, mbind, M_bind, open_session, fetched. simpl.
  rewrite H. simpl. by rewrite app_nil_r.
Qed.

Lemma get_data_no_token_value st :
  login_page (net (calls st)) = Some None →
  get_data st = (fetched st [], Raise (KeyError "value")).
Proof.
  intros H. unfold get_data, mbind, M_bind, open_session, fetched. simpl.
  rewrite H. simpl. by rewrite app_nil_r.
Qed.

Lemma get_data_login_failed st token :
  login_page (net (calls st)) = Some (Some token) →
  login_succeeds (net (calls st)) = false →
  get_data st =
  (fetched st ["Login failed.";
               "Raw response: " +:+ login_text (login_reply (net (calls st)))],
   Return None).
Proof.
  intros H Hl. unfold get_data, mbind, M_bind, open_session, fetched. simpl.
  rewrite H. simpl. unfold login_succeeds in Hl. rewrite Hl. simpl.
  by rewrite <- app_assoc.
Qed.

Lemma get_data_logged_in st token :
  login_page (net (calls st)) = Some (Some token) →
  login_succeeds (net (calls st)) = true →
  get_data st =
  (fetched st
     ("Login successful!"
      :: fetch_error_lines "dashboard stats" (dashboard_response (net (calls st)))
      ++ fetch_error_lines "servers info" (servers_response (net (calls st)))),
   Return (Some {| dashboard := decoded_or ∅ (dashboard_response (net (calls st)));
                   servers := decoded_or [] (servers_response (net (calls st))) |})).
Proof.
  intros H Hl. unfold get_data, mbind, M_bind, open_session, fetched. simpl.
  rewrite H. simpl. unfold login_succeeds in Hl. rewrite Hl. simpl.
  unfold decoded_or, fetch_error_lines.
  destruct (net (calls st)) as [pg lr [dc dj dt] [sc sj st']]. simpl.
  destruct (dc =? 200)%Z, (sc =? 200)%Z, dj, sj; simpl;
    rewrite <- ?app_assoc; reflexivity.
Qed.

(** [get_data] touches neither the StatusMap nor the outbox, and counts
    itself once, whatever it returns. *)
Lemma get_data_frame st :
  ∃ lines, (get_data st).1 = fetched st lines.
Proof.
  destruct (login_page (net (calls st))) as [[token|]|] eqn:Hp.
  - destruct (login_succeeds (net (calls st))) eqn:Hl.
    + rewrite (get_data_logged_in st token Hp Hl). by eexists.
    + rewrite (get_data_login_failed st token Hp Hl). by eexists.
  - rewrite (get_data_no_token_value st Hp). by eexists.
  - rewrite (get_data_no_token_input st Hp). by eexists.
Qed.

(** *** The loop of the Status Differ *)

Lemma posted_nil st : posted st [] = st.
Proof. destruct st. unfold posted. simpl. by rewrite app_nil_r. Qed.

Lemma posted_posted st a b : posted (posted st a) b = posted st (a ++ b).
Proof. unfold posted. simpl. by rewrite app_assoc. Qed.

Lemma emits_transition_alerts previous s :
  is_server_record s → emits previous s (transition_alerts previous s).
Proof.
  intros [[name Hn] [new Hh]]. unfold transition_alerts. rewrite Hn, Hh.
  destruct (previous !! name) as [old|] eqn:Hp.
  - destruct (decide (old = new)) as [->|Hne].
    + by eapply emits_unchanged.
    + destruct (decide (new = "online")) as [Hon|Hoff].
      * subst new. by apply (emits_recovered previous s name old "online").
      * by apply (emits_degraded previous s name old new).
  - by eapply emits_first_sighting.
Qed.

(** The rule leaves no choice: a server emits one list only. *)
Lemma emits_functional previous s e1 e2 :
  emits previous s e1 → emits previous s e2 → e1 = e2.
Proof.
  intros H1 H2. destruct H1, H2; simplify_eq; done.
Qed.

Lemma notify_one_record s cs st :
  is_server_record s →
  notify_one s cs st =
  (posted st (transition_alerts (prev_server_statuses st) s),
   Return (record_status cs s)).
Proof.
  intros [[name Hn] [new Hh]].
  unfold notify_one, transition_alerts, record_status, mbind, M_bind, lift,
    getitem, read_prev.
  rewrite Hn, Hh. simpl.
  destruct (prev_server_statuses st !! name) as [old|] eqn:Hp; simpl.
  - destruct (decide (old = new)) as [->|Hne].
    + rewrite (bool_decide_eq_true_2 (_ = _)) by done. simpl.
      by rewrite posted_nil.
    + rewrite (bool_decide_eq_false_2 (_ = _)) by congruence. simpl.
      destruct (decide (new = "online")) as [->|Hon].
      * reflexivity.
      * apply String.eqb_neq in Hon. rewrite Hon. reflexivity.
  - by rewrite posted_nil.
Qed.

Lemma notify_loop_records current : ∀ cs st,
  Forall is_server_record current →
  notify_loop current cs st =
  (posted st (flat_map (transition_alerts (prev_server_statuses st)) current),
   Return (fold_left record_status current cs)).
Proof.
  induction current as [|s rest IH]; intros cs st Hwf.
  - simpl. by rewrite posted_nil.
  - apply Forall_cons in Hwf as [Hs Hrest]. simpl.
    unfold mbind, M_bind. rewrite (notify_one_record s cs st Hs).
    rewrite (IH _ _ Hrest). simpl. by rewrite posted_posted.
Qed.

(** Whatever the records look like, the loop only sends transition alerts. *)
Lemma notify_one_frame s cs st :
  ∃ msgs, (notify_one s cs st).1 = posted st msgs ∧
          Forall is_transition_alert msgs.
Proof.
  unfold notify_one, mbind, M_bind, lift, getitem, read_prev.
  destruct (s !! "name") as [name|]; simpl;
    [|exists []; by rewrite posted_nil].
  destruct (s !! "health_status") as [new|]; simpl;
    [|exists []; by rewrite posted_nil].
  destruct (_ && _); simpl.
  - destruct (negb _); simpl.
    + eexists. split; [done|]. apply Forall_singleton.
      exists name, new. by left.
    + destruct (String.eqb _ _); simpl.
      * eexists. split; [done|]. apply Forall_singleton.
        exists name, new. by right.
      * exists []. by rewrite posted_nil.
  - exists []. by rewrite posted_nil.
Qed.

Lemma notify_loop_frame current : ∀ cs st,
  ∃ msgs, (notify_loop current cs st).1 = posted st msgs ∧
          Forall is_transition_alert msgs.
Proof.
  induction current as [|s rest IH]; intros cs st.
  - exists []. simpl. by rewrite posted_nil.
  - simpl. unfold mbind, M_bind.
    destruct (notify_one_frame s cs st) as (m1 & H1 & F1).
    destruct (notify_one s cs st) as [st1 [e|cs1]]; simpl in *; subst.
    + by eexists.
    + destruct (IH cs1 (posted st m1)) as (m2 & H2 & F2).
      destruct (notify_loop rest cs1 (posted st m1)) as [st2 r2].
      simpl in *. subst. exists (m1 ++ m2).
      rewrite posted_posted. destruct r2; split; try done;
        by apply Forall_app.
Qed.

(** *** The map the loop builds *)

Lemma record_status_lookup cs s n :
  record_status cs s !! n =
  match statuses_named n [s] with
  | h :: _ => Some h
  | [] => cs !! n
  end.
Proof.
  unfold record_status, statuses_named. simpl.
  destruct (s !! "name") as [name|] eqn:Hn.
  - destruct (decide (Some name = Some n)) as [[= ->]|Hne].
    + destruct (s !! "health_status") as [h|]; simpl; [|done].
      by rewrite lookup_insert_eq.
    + destruct (s !! "health_status") as [h|]; simpl; [|done].
      rewrite lookup_insert_ne; [done|congruence].
  - by destruct (decide (None = Some n)).
Qed.

Lemma statuses_named_cons n s rest :
  statuses_named n (s :: rest) = statuses_named n [s] ++ statuses_named n rest.
Proof.
  unfold statuses_named. simpl.
  by destruct (if decide (s !! "name" = Some n) then _ else _).
Qed.

Lemma statuses_named_single n s :
  statuses_named n [s] = [] ∨ ∃ h, statuses_named n [s] = [h].
Proof.
  unfold statuses_named. simpl.
  destruct (if decide (s !! "name" = Some n) then _ else _); eauto.
Qed.

Lemma fold_record_status_lookup current : ∀ cs n,
  fold_left record_status current cs !! n =
  match last (statuses_named n current) with
  | Some h => Some h
  | None => cs !! n
  end.
Proof.
  induction current as [|s rest IH]; intros cs n; [done|].
  simpl fold_left. rewrite IH, statuses_named_cons, record_status_lookup.
  destruct (statuses_named_single n s) as [->|[h ->]]; simpl app; [done|].
  rewrite last_cons. by destruct (last (statuses_named n rest)).
Qed.

Lemma status_map_lookup current n :
  status_map current !! n = last (statuses_named n current).
Proof.
  unfold status_map. rewrite fold_record_status_lookup.
  by destruct (last _).
Qed.

Lemma elem_of_statuses_named n h current :
  h ∈ statuses_named n current ↔
  ∃ s, s ∈ current ∧ s !! "name" = Some n ∧ s !! "health_status" = Some h.
Proof.
  unfold statuses_named. rewrite list_elem_of_omap. split.
  - intros (s & Hs & Hd). exists s. by destruct (decide _).
  - intros (s & Hs & Hn & Hh). exists s. split; [done|].
    by rewrite decide_True.
Qed.

Lemma elem_of_last {A} (l : list A) x : x ∈ l → is_Some (last l).
Proof.
  intros H. destruct l as [|y l] using rev_ind; [by apply elem_of_nil in H|].
  rewrite last_snoc. by eexists.
Qed.

Lemma elem_of_names n current :
  n ∈ names current ↔ ∃ s, s ∈ current ∧ s !! "name" = Some n.
Proof.
  unfold names. rewrite elem_of_list_to_set, list_elem_of_omap. naive_solver.
Qed.

Lemma dom_status_map current :
  Forall is_server_record current → dom (status_map current) = names current.
Proof.
  intros Hwf. apply set_eq. intros n.
  rewrite elem_of_dom, status_map_lookup, elem_of_names. split.
  - intros [h Hl].
    apply last_Some_elem_of, elem_of_statuses_named in Hl
      as (s & Hs & Hn & _).
    by exists s.
  - intros (s & Hs & Hn).
    rewrite Forall_forall in Hwf. destruct (Hwf s Hs) as [_ [h Hh]].
    apply (elem_of_last _ h), elem_of_statuses_named. eauto.
Qed.

Lemma agreeing_distinct current :
  NoDup (omap (λ s : gmap string string, s !! "name") current) →
  agreeing current.
Proof.
  induction current as [|s rest IH]; intros Hnd s1 s2 n H1 H2 Hn1 Hn2.
  { by apply elem_of_nil in H1. }
  assert (Hrest : ∀ s', s' ∈ rest → s' !! "name" = Some n →
                        s !! "name" = Some n → False).
  { intros s' Hs' Hn' Hn. simpl in Hnd. rewrite Hn in Hnd.
    apply NoDup_cons in Hnd as [Hnotin _]. apply Hnotin.
    apply list_elem_of_omap. eauto. }
  assert (Hnd' : NoDup (omap (λ s : gmap string string, s !! "name") rest)).
  { simpl in Hnd. destruct (s !! "name"); [|done].
    by apply NoDup_cons in Hnd as [_ ?]. }
  apply elem_of_cons in H1 as [->|H1], H2 as [->|H2]; try done.
  - exfalso. eauto.
  - exfalso. eauto.
  - by apply (IH Hnd' s1 s2 n).
Qed.

(** Under [agreeing], the map sends the name of every record to the health
    of that very record. *)
Lemma status_map_agreeing current s n h :
  agreeing current → s ∈ current →
  s !! "name" = Some n → s !! "health_status" = Some h →
  status_map current !! n = Some h.
Proof.
  intros Hag Hs Hn Hh. rewrite status_map_lookup.
  destruct (elem_of_last (statuses_named n current) h) as [h' Hl].
  { apply elem_of_statuses_named. eauto. }
  rewrite Hl. apply last_Some_elem_of, elem_of_statuses_named in Hl
    as (s' & Hs' & Hn' & Hh').
  specialize (Hag s s' n Hs Hs' Hn Hn'). congruence.
Qed.

(** *** The Differ as a whole *)

Lemma status_differ_records current st :
  Forall is_server_record current →
  status_differ current st =
  (with_statuses (status_map current)
     (posted st (flat_map (transition_alerts (prev_server_statuses st)) current)),
   Return tt).
Proof.
  intros Hwf. unfold status_differ, mbind, M_bind.
  by rewrite (notify_loop_records current ∅ st Hwf).
Qed.

Lemma transition_alerts_origin previous s m :
  m ∈ transition_alerts previous s →
  ∃ name h, s !! "name" = Some name ∧ s !! "health_status" = Some h ∧
            (m = degraded_alert name h ∨ m = recovered_alert name h).
Proof.
  unfold transition_alerts.
  destruct (s !! "name") as [name|]; [|by intros ?%elem_of_nil].
  destruct (s !! "health_status") as [h|]; [|by intros ?%elem_of_nil].
  destruct (previous !! name) as [old|]; [|by intros ?%elem_of_nil].
  destruct (decide (old = h)); [by intros ?%elem_of_nil|].
  destruct (decide (h = "online")); intros ->%list_elem_of_singleton;
    exists name, h; auto.
Qed.

Lemma transition_alerts_first_sighting s : transition_alerts ∅ s = [].
Proof.
  unfold transition_alerts.
  destruct (s !! "name"), (s !! "health_status"); try done.
Qed.

Lemma transition_alerts_unchanged previous s n h :
  s !! "name" = Some n → s !! "health_status" = Some h →
  previous !! n = Some h → transition_alerts previous s = [].
Proof.
  intros Hn Hh Hp. unfold transition_alerts. rewrite Hn, Hh, Hp.
  by rewrite decide_True.
Qed.

Lemma flat_map_nil {A B} (f : A → list B) (l : list A) :
  (∀ x, x ∈ l → f x = []) → flat_map f l = [].
Proof.
  induction l as [|x l IH]; intros H; [done|]. simpl.
  rewrite (H x) by by left. apply IH. intros y Hy. apply H. by right.
Qed.

(** ** The Status Differ *)

(** C1. For every previous StatusMap and every current server list, the
    Status Differ emits, server by server and in the order of [current]:
    exactly one DEGRADED alert carrying the new status for a server known
    to [previous] whose health changed to something other than "online"
    (the message to the alert channel reading "Server **name** is
    currently **status**." after the warning sign), exactly one RECOVERED
    alert for one whose health changed to "online" ("Server **name** is
    back **online**." after the check mark), and nothing for a server
    absent from [previous] or whose health is the one [previous] holds. *)
Theorem differ_emits_transitions
  (previous : gmap string string) (current : list (gmap string string))
  (st : state) :
  prev_server_statuses st = previous →
  Forall is_server_record current →
  ∃ emitted,
    (status_differ current st).2 = Return tt ∧
    sent (status_differ current st).1 = sent st ++ concat emitted ∧
    Forall2 (emits previous) current emitted.
Proof.
  intros <- Hwf.
  exists (map (transition_alerts (prev_server_statuses st)) current).
  rewrite (status_differ_records current st Hwf). simpl.
  split; [done|]. split.
  - by rewrite flat_map_concat_map.
  - apply Forall2_fmap_r, Forall_Forall2_diag.
    eapply Forall_impl; [exact Hwf|]. intros s Hs.
    by apply emits_transition_alerts.
Qed.

(** C4, amended. For every current server list, running the Status Differ
    when the previous StatusMap is empty emits nothing, and the StatusMap
    afterwards has exactly the names of [current] as keys and maps each
    name to the health of the last record of [current] carrying it: to
    exactly that server's health whenever the records sharing a name agree
    on it (in particular when names are distinct). *)
Theorem first_poll_populates (current : list (gmap string string)) (st : state) :
  prev_server_statuses st = ∅ →
  Forall is_server_record current →
  (status_differ current st).2 = Return tt ∧
  sent (status_differ current st).1 = sent st ∧
  dom (prev_server_statuses (status_differ current st).1) = names current ∧
  (∀ name,
     prev_server_statuses (status_differ current st).1 !! name =
     last (statuses_named name current)) ∧
  (agreeing current →
   ∀ s name health, s ∈ current →
     s !! "name" = Some name → s !! "health_status" = Some health →
     prev_server_statuses (status_differ current st).1 !! name = Some health).
Proof.
  intros Hempty Hwf. rewrite (status_differ_records current st Hwf). simpl.
  rewrite Hempty.
  rewrite (flat_map_nil _ current)
    by (intros; apply transition_alerts_first_sighting).
  repeat split.
  - apply app_nil_r.
  - by apply dom_status_map.
  - apply status_map_lookup.
  - intros Hag s n h Hs Hn Hh. by eapply status_map_agreeing.
Qed.

(** C5. After every successful poll the StatusMap is replaced by the map
    computed from [current] alone: its keys are exactly the names occurring
    in [current]; a name of the previous StatusMap that is absent from
    [current] is dropped, and every alert of the poll is a transition alert
    of a record of [current], so none is about a dropped name. *)
Theorem statusmap_replaced (current : list (gmap string string)) (st : state) :
  delivers (net (calls st)) current →
  Forall is_server_record current →
  (notify_server_status st).2 = Return tt ∧
  prev_server_statuses (notify_server_status st).1 = status_map current ∧
  dom (prev_server_statuses (notify_server_status st).1) = names current ∧
  ∃ emitted,
    sent (notify_server_status st).1 = sent st ++ emitted ∧
    ∀ dropped,
      dropped ∈ dom (prev_server_statuses st) → dropped ∉ names current →
      prev_server_statuses (notify_server_status st).1 !! dropped = None ∧
      Forall (λ m, ∃ s name health,
                s ∈ current ∧ s !! "name" = Some name ∧
                s !! "health_status" = Some health ∧ name ≠ dropped ∧
                (m = degraded_alert name health ∨
                 m = recovered_alert name health)) emitted.
Proof.
  intros ([token Htok] & Hlogin & Hcur) Hwf.
  unfold notify_server_status, mbind, M_bind.
  rewrite (get_data_logged_in st token Htok Hlogin). simpl.
  rewrite Hcur, (status_differ_records current _ Hwf). simpl.
  split; [done|]. split; [done|]. split; [by apply dom_status_map|].
  eexists. split; [done|]. intros dropped _ Hnot. split.
  - apply not_elem_of_dom. by rewrite dom_status_map.
  - apply Forall_forall. intros m Hm.
    apply list_elem_of_In, in_flat_map in Hm as (s & Hs & Hm).
    apply list_elem_of_In in Hs, Hm.
    destruct (transition_alerts_origin _ _ _ Hm) as (name & h & Hn & Hh & Hor).
    exists s, name, h. repeat split; try done.
    intros ->. apply Hnot, elem_of_names. eauto.
Qed.

(** Without [agreeing] the second run is not silent: a silent run on the
    map of [current] forces the records sharing a name to agree. *)
Lemma silent_differ_agreeing current st :
  Forall is_server_record current →
  prev_server_statuses st = status_map current →
  sent (status_differ current st).1 = sent st →
  agreeing current.
Proof.
  intros Hwf Hprev Hsent. rewrite (status_differ_records current st Hwf) in Hsent.
  simpl in Hsent. rewrite <- (app_nil_r (sent st)) in Hsent at 2.
  apply app_inv_head in Hsent.
  assert (Hsame : ∀ s n h, s ∈ current →
            s !! "name" = Some n → s !! "health_status" = Some h →
            status_map current !! n = Some h).
  { intros s n h Hs Hn Hh.
    assert (Hnone : transition_alerts (prev_server_statuses st) s = []).
    { apply list_elem_of_In in Hs.
      destruct (transition_alerts (prev_server_statuses st) s) as [|m l] eqn:E;
        [done|].
      assert (Hin : In m (flat_map
                (transition_alerts (prev_server_statuses st)) current)).
      { apply in_flat_map. exists s. split; [done|]. rewrite E. by left. }
      rewrite Hsent in Hin. destruct Hin. }
    destruct (elem_of_last (statuses_named n current) h) as [h' Hl].
    { apply elem_of_statuses_named. eauto. }
    rewrite <- status_map_lookup in Hl.
    unfold transition_alerts in Hnone. rewrite Hn, Hh, Hprev, Hl in Hnone.
    destruct (decide (h' = h)) as [->|]; [done|].
    by destruct (decide (h = "online")). }
  intros s1 s2 n H1 H2 Hn1 Hn2. rewrite Forall_forall in Hwf.
  destruct (Hwf s1 H1) as [_ [h1 Hh1]], (Hwf s2 H2) as [_ [h2 Hh2]].
  pose proof (Hsame s1 n h1 H1 Hn1 Hh1) as E1.
  pose proof (Hsame s2 n h2 H2 Hn2 Hh2) as E2.
  congruence.
Qed.

(** C6, amended. For every current server list whose records agree on the
    health of each name (in particular when names are distinct), running
    the Status Differ on it with a previous StatusMap already equal to the
    map of its names to their health emits nothing and leaves that map in
    place. *)
Theorem differ_idempotent (current : list (gmap string string)) (st : state) :
  Forall is_server_record current →
  agreeing current →
  prev_server_statuses st = status_map current →
  (status_differ current st).2 = Return tt ∧
  sent (status_differ current st).1 = sent st ∧
  prev_server_statuses (status_differ current st).1 = prev_server_statuses st.
Proof.
  intros Hwf Hag Hprev. rewrite (status_differ_records current st Hwf). simpl.
  split; [done|]. split; [|done].
  rewrite flat_map_nil; [apply app_nil_r|].
  intros s Hs. rewrite Forall_forall in Hwf.
  destruct (Hwf s Hs) as [[n Hn] [h Hh]].
  apply (transition_alerts_unchanged _ s n h Hn Hh).
  rewrite Hprev. by eapply status_map_agreeing.
Qed.

(** *** Frames of the two halves of a poll *)

Lemma status_differ_frame current st :
  ∃ msgs m,
    (status_differ current st).1 = with_statuses m (posted st msgs) ∧
    Forall is_transition_alert msgs ∧
    ((status_differ current st).2 = Return tt ∨ m = prev_server_statuses st).
Proof.
  unfold status_differ, mbind, M_bind.
  destruct (notify_loop_frame current ∅ st) as (msgs & H & F).
  destruct (notify_loop current ∅ st) as [st1 [e|cs]]; simpl in *; subst.
  - exists msgs, (prev_server_statuses st). by destruct st; auto.
  - exists msgs, cs. auto.
Qed.

Lemma notify_server_status_frame st :
  ∃ lines msgs m,
    (notify_server_status st).1 =
      with_statuses m (posted (fetched st lines) msgs) ∧
    Forall is_transition_alert msgs.
Proof.
  unfold notify_server_status, mbind, M_bind.
  destruct (get_data_frame st) as [lines H].
  destruct (get_data st) as [st1 [e|[d|]]]; simpl in *; subst.
  - exists lines, [], (prev_server_statuses st). rewrite posted_nil.
    by destruct st.
  - destruct (status_differ_frame (servers d) (fetched st lines))
      as (msgs & m & Hd & F & _).
    destruct (status_differ _ _) as [st2 r2]. simpl in *. subst.
    by exists lines, msgs, m.
  - exists lines, [], (prev_server_statuses st). rewrite posted_nil.
    by destruct st.
Qed.

Lemma license_check_frame st :
  ∃ lines msgs,
    (notify_if_license_inactive st).1 = posted (fetched st lines) msgs ∧
    (msgs = [] ∨ msgs = [license_alert]).
Proof.
  unfold notify_if_license_inactive, mbind, M_bind, lift, getitem.
  destruct (get_data_frame st) as [lines H].
  destruct (get_data st) as [st1 [e|[d|]]]; simpl in *; subst;
    try (exists lines, []; rewrite posted_nil; by auto).
  destruct (dashboard d !! "license") as [license|]; simpl;
    [|exists lines, []; rewrite posted_nil; by auto].
  destruct (license !! "status") as [status|]; simpl;
    [|exists lines, []; rewrite posted_nil; by auto].
  destruct (negb _); simpl.
  - exists lines, [license_alert]. auto.
  - exists lines, []. rewrite posted_nil. auto.
Qed.

Lemma license_check_login_failed st :
  fails_login (net (calls st)) →
  notify_if_license_inactive st =
  (fetched st ["Login failed.";
               "Raw response: " +:+ login_text (login_reply (net (calls st)))],
   Return tt).
Proof.
  intros [[token Htok] Hl].
  unfold notify_if_license_inactive, mbind, M_bind.
  by rewrite (get_data_login_failed st token Htok Hl).
Qed.

Lemma license_check_observes st status :
  observes_license (net (calls st)) status →
  ∃ lines,
    notify_if_license_inactive st =
    (posted (fetched st lines)
       (if decide (status = "Active") then [] else [license_alert]),
     Return tt).
Proof.
  intros (token & license & Htok & Hl & Hlic & Hst).
  unfold notify_if_license_inactive, mbind, M_bind, lift, getitem.
  rewrite (get_data_logged_in st token Htok Hl). simpl.
  rewrite Hlic. simpl. rewrite Hst. simpl. eexists.
  destruct (decide (status = "Active")) as [->|Hne].
  - simpl. by rewrite posted_nil.
  - apply String.eqb_neq in Hne. by rewrite Hne.
Qed.

Lemma server_status_login_failed st :
  fails_login (net (calls st)) →
  notify_server_status st =
  (fetched st ["Login failed.";
               "Raw response: " +:+ login_text (login_reply (net (calls st)))],
   Return tt).
Proof.
  intros [[token Htok] Hl].
  unfold notify_server_status, mbind, M_bind.
  by rewrite (get_data_login_failed st token Htok Hl).
Qed.

Lemma server_status_delivers st current :
  delivers (net (calls st)) current →
  Forall is_server_record current →
  ∃ lines,
    notify_server_status st =
    (with_statuses (status_map current)
       (posted (fetched st lines)
          (flat_map (transition_alerts (prev_server_statuses st)) current)),
     Return tt).
Proof.
  intros ([token Htok] & Hl & Hcur) Hwf.
  unfold notify_server_status, mbind, M_bind.
  rewrite (get_data_logged_in st token Htok Hl). simpl.
  rewrite Hcur, (status_differ_records current _ Hwf). by eexists.
Qed.

(** *** Counting license alerts *)






(** ** Fetch failures *)

Lemma get_data_none_iff st :
  (get_data st).2 = Return None ↔ fails_login (net (calls st)).
Proof.
  unfold fails_login.
  destruct (login_page (net (calls st))) as [[token|]|] eqn:Hp.
  - destruct (login_succeeds (net (calls st))) eqn:Hl.
    + rewrite (get_data_logged_in st token Hp Hl). simpl.
      split; [done|]. by intros [_ ?].
    + rewrite (get_data_login_failed st token Hp Hl). simpl.
      split; [eauto|done].
  - rewrite (get_data_no_token_value st Hp). simpl.
    split; [done|]. by intros [[? ?] _].
  - rewrite (get_data_no_token_input st Hp). simpl.
    split; [done|]. by intros [[? ?] _].
Qed.

(** C8. For every prior StatusMap, when the Fetcher returns its failure
    signal [None] to the Differ's half of a cycle, the Status Differ does
    not run: the half ends right after the fetch, nothing is sent and the
    StatusMap is the one from before the cycle. *)
Theorem login_failure_skips_differ (st : state) :
  (get_data st).2 = Return None →
  notify_server_status st = ((get_data st).1, Return tt) ∧
  sent (notify_server_status st).1 = sent st ∧
  prev_server_statuses (notify_server_status st).1 = prev_server_statuses st ∧
  (∀ before,
     (notify_if_license_inactive before).1 = st →
     (notify_if_license_inactive before).2 = Return tt →
     poll_status before = ((get_data st).1, Return tt) ∧
     prev_server_statuses (poll_status before).1 = prev_server_statuses before).
Proof.
  intros Hnone. destruct (get_data_frame st) as [lines Hf].
  assert (Hnss : notify_server_status st = ((get_data st).1, Return tt)).
  { unfold notify_server_status, mbind, M_bind.
    destruct (get_data st) as [st1 r]. simpl in *. by subst. }
  rewrite Hnss, Hf. simpl. do 3 (split; [done|]).
  intros before Hst Hr. unfold poll_status, mbind, M_bind.
  destruct (license_check_frame before) as (l0 & m0 & H0 & _).
  destruct (notify_if_license_inactive before) as [st0 r0]. simpl in *.
  subst st0 r0. rewrite Hnss, Hf. split; [done|]. simpl. by rewrite H0.
Qed.

(** C3, amended. For every invocation of the Data Fetcher that finds the
    CSRF token: when login succeeds it returns the composite result
    [{dashboard, servers}], in which a fetch that returned well-formed JSON
    contributes its decoded body and a fetch that did not contributes the
    empty default ([{}] for the dashboard, [[]] for the servers); it
    returns the failure signal [None] exactly when login fails. *)
Theorem get_data_result (st : state) (token : string) :
  login_page (net (calls st)) = Some (Some token) →
  (login_succeeds (net (calls st)) = true →
   (get_data st).2 =
   Return (Some {| dashboard := decoded_or ∅ (dashboard_response (net (calls st)));
                   servers := decoded_or [] (servers_response (net (calls st))) |})) ∧
  (well_formed (dashboard_response (net (calls st))) →
   json (dashboard_response (net (calls st))) =
   Some (decoded_or ∅ (dashboard_response (net (calls st))))) ∧
  (¬ well_formed (dashboard_response (net (calls st))) →
   decoded_or ∅ (dashboard_response (net (calls st))) = ∅) ∧
  (well_formed (servers_response (net (calls st))) →
   json (servers_response (net (calls st))) =
   Some (decoded_or [] (servers_response (net (calls st))))) ∧
  (¬ well_formed (servers_response (net (calls st))) →
   decoded_or [] (servers_response (net (calls st))) = []) ∧
  ((get_data st).2 = Return None ↔ login_succeeds (net (calls st)) = false).
Proof.
  intros Htok.
  assert (Hdec : ∀ J (default : J) (r : response J),
            (well_formed r → json r = Some (decoded_or default r)) ∧
            (¬ well_formed r → decoded_or default r = default)).
  { intros J default [c j t]. unfold well_formed, decoded_or. simpl.
    destruct (Z.eqb_spec c 200) as [->|Hc].
    - destruct j as [v|]; simpl.
      + split; [done|]. intros []. eauto.
      + split; [|done]. by intros [_ [? ?]].
    - split; [|done]. by intros [? _]. }
  split; [|split; [|split; [|split; [|split]]]]; try apply Hdec.
  - intros Hl. by rewrite (get_data_logged_in st token Htok Hl).
  - rewrite get_data_none_iff. unfold fails_login. split.
    + by intros [_ ?].
    + eauto.
Qed.

(** *** One poll cycle *)

Lemma poll_after_license st :
  (notify_if_license_inactive st).2 = Return tt →
  poll_status st = notify_server_status (notify_if_license_inactive st).1.
Proof.
  unfold poll_status, mbind, M_bind.
  by destruct (notify_if_license_inactive st) as [st1 [e|[]]].
Qed.

Lemma poll_license_raises st e :
  (notify_if_license_inactive st).2 = Raise e →
  poll_status st = ((notify_if_license_inactive st).1, Raise e).
Proof.
  unfold poll_status, mbind, M_bind.
  destruct (notify_if_license_inactive st) as [st1 [e'|[]]]; simpl; congruence.
Qed.

Lemma server_status_changes_statusmap st :
  prev_server_statuses (notify_server_status st).1 ≠ prev_server_statuses st →
  login_succeeds (net (calls st)) = true.
Proof.
  intros Hne. destruct (login_succeeds (net (calls st))) eqn:Hl; [done|].
  exfalso. apply Hne. unfold notify_server_status, mbind, M_bind.
  destruct (login_page (net (calls st))) as [[token|]|] eqn:Hp.
  - by rewrite (get_data_login_failed st token Hp Hl).
  - by rewrite (get_data_no_token_value st Hp).
  - by rewrite (get_data_no_token_input st Hp).
Qed.

Lemma fetch_error_lines_logged {J} what (r : response J) :
  ¬ well_formed r → fetch_error_lines what r ≠ [].
Proof.
  destruct r as [c j t]. unfold well_formed, fetch_error_lines. simpl.
  destruct (Z.eqb_spec c 200) as [->|Hc]; [|done].
  destruct j; [|done]. intros H _. apply H. eauto.
Qed.

(** C2, amended. For every poll cycle in which the fetch fails at login,
    the cycle does not raise, the failure is logged, nothing is sent and
    the StatusMap retains exactly the value it had before the cycle; the
    StatusMap is changed only by a cycle whose license check returned and
    whose Differ fetch got past login.  An HTTP error status or a non-JSON
    body after a successful login is logged as well. *)
Theorem login_failure_keeps_statusmap :
  (∀ st,
     fails_login (net (calls st)) → fails_login (net (S (calls st))) →
     (poll_status st).2 = Return tt ∧
     prev_server_statuses (poll_status st).1 = prev_server_statuses st ∧
     sent (poll_status st).1 = sent st ∧
     stdout (poll_status st).1 =
       stdout st ++
       ["Login failed.";
        "Raw response: " +:+ login_text (login_reply (net (calls st)));
        "Login failed.";
        "Raw response: " +:+ login_text (login_reply (net (S (calls st))))]) ∧
  (∀ st,
     prev_server_statuses (poll_status st).1 ≠ prev_server_statuses st →
     (notify_if_license_inactive st).2 = Return tt ∧
     login_succeeds (net (S (calls st))) = true) ∧
  (∀ st token,
     login_page (net (calls st)) = Some (Some token) →
     login_succeeds (net (calls st)) = true →
     stdout (get_data st).1 =
       stdout st ++
       "Login successful!"
       :: fetch_error_lines "dashboard stats" (dashboard_response (net (calls st)))
       ++ fetch_error_lines "servers info" (servers_response (net (calls st))) ∧
     (¬ well_formed (dashboard_response (net (calls st))) →
      fetch_error_lines "dashboard stats"
        (dashboard_response (net (calls st))) ≠ []) ∧
     (¬ well_formed (servers_response (net (calls st))) →
      fetch_error_lines "servers info"
        (servers_response (net (calls st))) ≠ [])).
Proof.
  split; [|split].
  - intros st H1 H2.
    rewrite poll_after_license
      by by rewrite (license_check_login_failed st H1).
    rewrite (license_check_login_failed st H1). simpl.
    rewrite server_status_login_failed by done. simpl.
    repeat split; try done. by rewrite <- app_assoc.
  - intros st Hne.
    destruct (license_check_frame st) as (l0 & m0 & H0 & _).
    destruct (notify_if_license_inactive st) as [st1 r1] eqn:Hlic.
    simpl in H0. subst st1. destruct r1 as [e|[]].
    + exfalso. apply Hne. rewrite (poll_license_raises st e)
        by by rewrite Hlic.
      by rewrite Hlic.
    + split; [done|]. rewrite poll_after_license in Hne by by rewrite Hlic.
      rewrite Hlic in Hne. simpl in Hne.
      by apply (server_status_changes_statusmap (posted (fetched st l0) m0)).
  - intros st token Htok Hl.
    rewrite (get_data_logged_in st token Htok Hl). simpl.
    split; [done|]. split; apply fetch_error_lines_logged.
Qed.


(** C9, amended. Every timer-triggered poll cycle invokes the Data Fetcher
    once for the license check and, when the license check returns, once
    more for the status diff.  The license verdict is taken from the first
    fetch and the diff from the second, so the two may come from different
    snapshots, and a login failure of either fetch leaves the other half
    to its own fetch. *)
Theorem poll_fetches_per_half :
  (∀ st, calls (notify_if_license_inactive st).1 = S (calls st)) ∧
  (∀ st,
     (notify_if_license_inactive st).2 = Return tt →
     poll_status st = notify_server_status (notify_if_license_inactive st).1 ∧
     calls (poll_status st).1 = 2 + calls st) ∧
  (∀ st status current,
     observes_license (net (calls st)) status →
     delivers (net (S (calls st))) current →
     Forall is_server_record current →
     (poll_status st).2 = Return tt ∧
     sent (poll_status st).1 =
       sent st ++ (if decide (status = "Active") then [] else [license_alert])
       ++ flat_map (transition_alerts (prev_server_statuses st)) current ∧
     prev_server_statuses (poll_status st).1 = status_map current) ∧
  (∀ st current,
     fails_login (net (calls st)) →
     delivers (net (S (calls st))) current →
     Forall is_server_record current →
     (poll_status st).2 = Return tt ∧
     sent (poll_status st).1 =
       sent st ++ flat_map (transition_alerts (prev_server_statuses st)) current ∧
     prev_server_statuses (poll_status st).1 = status_map current) ∧
  (∀ st status,
     observes_license (net (calls st)) status →
     fails_login (net (S (calls st))) →
     (poll_status st).2 = Return tt ∧
     sent (poll_status st).1 =
       sent st ++ (if decide (status = "Active") then [] else [license_alert]) ∧
     prev_server_statuses (poll_status st).1 = prev_server_statuses st).
Proof.
  split; [|split; [|split; [|split]]].
  - intros st. destruct (license_check_frame st) as (l & m & H & _).
    by rewrite H.
  - intros st Hr. split; [by apply poll_after_license|].
    rewrite poll_after_license by done.
    destruct (license_check_frame st) as (l & m & H & _). rewrite H.
    destruct (notify_server_status_frame (posted (fetched st l) m))
      as (l' & m' & sm & H' & _).
    by rewrite H'.
  - intros st status current Hobs Hdel Hwf.
    destruct (license_check_observes st status Hobs) as [lines Hlic].
    rewrite poll_after_license by by rewrite Hlic.
    rewrite Hlic. simpl.
    destruct (server_status_delivers
                (posted (fetched st lines)
                   (if decide (status = "Active") then [] else [license_alert]))
                current Hdel Hwf) as [lines' ->].
    simpl. by rewrite <- app_assoc.
  - intros st current Hfail Hdel Hwf.
    rewrite poll_after_license
      by by rewrite (license_check_login_failed st Hfail).
    rewrite (license_check_login_failed st Hfail). simpl.
    match goal with
    | |- context [notify_server_status ?s] =>
        destruct (server_status_delivers s current Hdel Hwf) as [lines' ->]
    end.
    done.
  - intros st status Hobs Hfail.
    destruct (license_check_observes st status Hobs) as [lines Hlic].
    rewrite poll_after_license by by rewrite Hlic.
    rewrite Hlic. simpl.
    match goal with
    | |- context [notify_server_status ?s] =>
        by rewrite (server_status_login_failed s Hfail)
    end.
Qed.

(** ** The on-demand report *)

Lemma get_data_with_statuses m st :
  get_data (with_statuses m st) =
  (with_statuses m (get_data st).1, (get_data st).2).
Proof.
  destruct (login_page (net (calls st))) as [[token|]|] eqn:Hp.
  - destruct (login_succeeds (net (calls st))) eqn:Hl.
    + by rewrite (get_data_logged_in st token Hp Hl),
        (get_data_logged_in (with_statuses m st) token Hp Hl).
    + by rewrite (get_data_login_failed st token Hp Hl),
        (get_data_login_failed (with_statuses m st) token Hp Hl).
  - by rewrite (get_data_no_token_value st Hp),
      (get_data_no_token_value (with_statuses m st) Hp).
  - by rewrite (get_data_no_token_input st Hp),
      (get_data_no_token_input (with_statuses m st) Hp).
Qed.

Lemma format_dashboard_stats_head stats txt :
  format_dashboard_stats stats = Return txt → ∃ tail, txt = String "*" tail.
Proof.
  unfold format_dashboard_stats, mbind, result_bind, getitem.
  repeat case_match; try done. intros [= <-]. by eexists.
Qed.

Lemma report_is_no_alert tail (servers_info : string) :
  String "*" tail +:+ servers_info ≠ license_alert_text ∧
  ∀ name status,
    String "*" tail +:+ servers_info ≠ degraded_text name status ∧
    String "*" tail +:+ servers_info ≠ recovered_text name status.
Proof. split; [by intros [=]|]. intros name status. by split; intros [=]. Qed.

(** C10, amended. Handling a /status request neither reads nor writes the
    StatusMap: the StatusMap afterwards is the one before, and the request
    runs the same with any other StatusMap.  It sends no DEGRADED,
    RECOVERED or license alert.  When the fetch fails at login it returns
    without sending anything; otherwise it sends at most one message, to
    the requesting chat: the formatted snapshot of what the Fetcher
    returned, or nothing when the Fetcher or a formatter raised. *)
Theorem status_request_frame (chat : Z) (st : state) :
  prev_server_statuses (send_report chat st).1 = prev_server_statuses st ∧
  (∀ m, send_report chat (with_statuses m st) =
        (with_statuses m (send_report chat st).1, (send_report chat st).2)) ∧
  (fails_login (net (calls st)) →
   (send_report chat st).2 = Return tt ∧
   sent (send_report chat st).1 = sent st) ∧
  ∃ emitted,
    sent (send_report chat st).1 = sent st ++ emitted ∧
    emitted =
      match (get_data st).2 with
      | Return (Some d) =>
          match format_dashboard_stats (dashboard d),
                format_servers_info (servers d) with
          | Return dashboard_text, Return servers_text =>
              [Message chat (dashboard_text +:+ servers_text) markdown]
          | _, _ => []
          end
      | _ => []
      end ∧
    Forall (λ msg,
              chat_id msg = chat ∧
              text msg ≠ license_alert_text ∧
              ∀ name status, text msg ≠ degraded_text name status ∧
                             text msg ≠ recovered_text name status) emitted.
Proof.
  assert (Hrun : ∀ st0,
    send_report chat st0 =
    match (get_data st0).2 with
    | Return (Some d) =>
        match format_dashboard_stats (dashboard d),
              format_servers_info (servers d) with
        | Return a, Return b =>
            (posted (get_data st0).1 [Message chat (a +:+ b) markdown],
             Return tt)
        | Raise e, _ => ((get_data st0).1, Raise e)
        | Return _, Raise e => ((get_data st0).1, Raise e)
        end
    | Return None => ((get_data st0).1, Return tt)
    | Raise e => ((get_data st0).1, Raise e)
    end).
  { intros st0. unfold send_report, mbind, M_bind, lift.
    destruct (get_data st0) as [st1 [e|[d|]]]; simpl; try done.
    all: destruct (format_dashboard_stats (dashboard d)) as [e|a]; simpl;
      [done|].
    all: by destruct (format_servers_info (servers d)) as [e|b]. }
  destruct (get_data_frame st) as [lines Hf].
  split; [|split; [|split]].
  - rewrite Hrun, Hf. by repeat case_match.
  - intros m. rewrite (Hrun (with_statuses m st)), Hrun.
    rewrite get_data_with_statuses. simpl. by repeat case_match.
  - intros [[token Htok] Hl].
    by rewrite Hrun, (get_data_login_failed st token Htok Hl).
  - eexists. split; [|split; [reflexivity|]].
    + rewrite Hrun, Hf. repeat case_match; simpl; by rewrite ?app_nil_r.
    + destruct (get_data st).2 as [e|[d|]]; try by constructor.
      destruct (format_dashboard_stats (dashboard d)) as [e|a] eqn:Ha;
        [by constructor|].
      destruct (format_servers_info (servers d)) as [e|b];
        [by constructor|].
      apply Forall_singleton. simpl. split; [done|].
      apply format_dashboard_stats_head in Ha as [tail ->].
      apply report_is_no_alert.
Qed.

(** * Further properties of the code *)

(** ** The formatters *)

Lemma string_app_cons ch (a b : string) :
  String ch a +:+ b = String ch (a +:+ b).
Proof. reflexivity. Qed.

Lemma string_app_assoc (a b c : string) : (a +:+ b) +:+ c = a +:+ b +:+ c.
Proof.
  induction a as [|ch a IH]; [done|]. rewrite !string_app_cons. by f_equal.
Qed.

Lemma string_app_nil_r (a : string) : a +:+ "" = a.
Proof.
  induction a as [|ch a IH]; [done|]. rewrite string_app_cons. by f_equal.
Qed.

(** [format_dashboard_stats] returns exactly on the payloads that carry the
    five leaves it prints, and on the empty dict, which [get_data] puts in
    the place of a dashboard it could not fetch, it raises [KeyError] for
    the first key it subscripts. *)
Theorem format_dashboard_stats_contract
  (stats : gmap string (gmap string string)) :
  (returns (format_dashboard_stats stats) ↔ complete_stats stats) ∧
  (stats = ∅ → format_dashboard_stats stats = Raise (KeyError "connections")).
Proof.
  split; [|by intros ->].
  unfold returns, complete_stats, format_dashboard_stats, mbind,
    result_bind, getitem. split.
  - intros [txt H]. repeat case_match; try discriminate.
    unfold is_Some. naive_solver.
  - intros ((c & -> & [ct ->]) & (s & -> & [sv ->]) & (u & -> & [uv ->])
            & (l & -> & [ls ->] & [pn ->])).
    by eexists.
Qed.

Lemma format_servers_loop_acc current : ∀ acc,
  format_servers_loop current acc =
  (tail ← format_servers_loop current ""; mret (acc +:+ tail)).
Proof.
  induction current as [|s rest IH]; intros acc; simpl.
  - unfold mret, result_ret, mbind, result_bind. by rewrite string_app_nil_r.
  - unfold mbind at 1 3, result_bind.
    destruct (format_server s) as [e|block]; [done|].
    change ("" +:+ block) with block.
    rewrite (IH (acc +:+ block)), (IH block). unfold mbind, result_bind.
    destruct (format_servers_loop rest "") as [e|tail]; [done|].
    unfold mret, result_ret. by rewrite string_app_assoc.
Qed.

Lemma format_server_returns s : returns (format_server s) ↔ printable s.
Proof.
  unfold returns, printable, server_keys, format_server, mbind, result_bind,
    getitem. split.
  - intros [txt H]. repeat case_match; try discriminate.
    repeat (apply List.Forall_cons; [by eexists|]). apply List.Forall_nil.
  - intros H. repeat (apply Forall_cons in H as [[? ->] H]). by eexists.
Qed.

(** [format_servers_info] prints the header and then one block per server,
    in order: the text of a list is the text of its front followed by the
    blocks of its back, and on the empty list it is the header alone.  It
    returns exactly when every record carries the eleven keys it prints;
    one record lacking a key makes the whole call raise. *)
Theorem format_servers_info_blocks (front back : list (gmap string string)) :
  format_servers_info [] = Return servers_header ∧
  format_servers_info (front ++ back) =
    (head ← format_servers_info front;
     blocks ← format_servers_loop back "";
     mret (head +:+ blocks)) ∧
  (returns (format_servers_info front) ↔ Forall printable front).
Proof.
  split; [done|]. split.
  - unfold format_servers_info. fold servers_header.
    generalize servers_header. induction front as [|s rest IH]; intros acc.
    + simpl. apply format_servers_loop_acc.
    + simpl. unfold mbind at 1 3, result_bind.
      destruct (format_server s) as [e|block]; [done|]. apply IH.
  - unfold format_servers_info. fold servers_header.
    generalize servers_header. induction front as [|s rest IH]; intros acc.
    + simpl. split; [constructor|]. intros _. by eexists.
    + simpl. rewrite Forall_cons, <- format_server_returns, <- (IH ""%string).
      unfold mbind, result_bind, returns.
      destruct (format_server s) as [e|block].
      * split; [by intros [? ?]|by intros [[? ?] _]].
      * rewrite (IH (acc +:+ block)), (IH ""%string). split; [|by intros [_ ?]].
        intros H. split; [by eexists|done].
Qed.


(** ** Fetch failures after a good login *)

Lemma decoded_or_ill_formed {J} (default : J) (r : response J) :
  ¬ well_formed r → decoded_or default r = default.
Proof.
  destruct r as [c j t]. unfold well_formed, decoded_or. simpl.
  destruct (Z.eqb_spec c 200) as [->|Hc]; [|done].
  destruct j as [v|]; [|done]. intros H. exfalso. apply H. eauto.
Qed.

Lemma format_dashboard_stats_empty :
  format_dashboard_stats ∅ = Raise (KeyError "connections").
Proof. reflexivity. Qed.

(** A /status request whose dashboard GET fails after a good login gets no
    reply at all: [format_dashboard_stats] raises [KeyError] on the empty
    dict the Fetcher put in its place, even though the server list may have
    been fetched; the StatusMap is left alone. *)
Theorem report_raises_without_dashboard (chat : Z) (st : state) (token : string) :
  login_page (net (calls st)) = Some (Some token) →
  login_succeeds (net (calls st)) = true →
  ¬ well_formed (dashboard_response (net (calls st))) →
  (send_report chat st).2 = Raise (KeyError "connections") ∧
  sent (send_report chat st).1 = sent st ∧
  prev_server_statuses (send_report chat st).1 = prev_server_statuses st.
Proof.
  intros Htok Hl Hbad. unfold send_report, mbind, M_bind, lift.
  rewrite (get_data_logged_in st token Htok Hl). simpl.
  rewrite (decoded_or_ill_formed _ _ Hbad), format_dashboard_stats_empty.
  done.
Qed.

(** A /status request whose servers GET fails after a good login is
    answered as if the fleet were empty: the reply is the dashboard text
    followed by the bare servers header. *)
Theorem report_after_failed_servers_fetch
  (chat : Z) (st : state) (token dashboard_text : string) :
  login_page (net (calls st)) = Some (Some token) →
  login_succeeds (net (calls st)) = true →
  ¬ well_formed (servers_response (net (calls st))) →
  format_dashboard_stats (decoded_or ∅ (dashboard_response (net (calls st))))
    = Return dashboard_text →
  (send_report chat st).2 = Return tt ∧
  sent (send_report chat st).1 =
    sent st ++ [Message chat (dashboard_text +:+ servers_header) markdown].
Proof.
  intros Htok Hl Hbad Hfmt. unfold send_report, mbind, M_bind, lift.
  rewrite (get_data_logged_in st token Htok Hl). simpl.
  rewrite Hfmt, (decoded_or_ill_formed _ _ Hbad). done.
Qed.

(** A poll cycle whose first dashboard GET fails after a good login stops in
    the license check: [data['dashboard']['license']] raises [KeyError] on
    the empty dict, the Differ is not reached, the Fetcher ran once, nothing
    is sent and the StatusMap keeps its value. *)
Theorem poll_aborts_without_dashboard (st : state) (token : string) :
  login_page (net (calls st)) = Some (Some token) →
  login_succeeds (net (calls st)) = true →
  ¬ well_formed (dashboard_response (net (calls st))) →
  (poll_status st).2 = Raise (KeyError "license") ∧
  calls (poll_status st).1 = S (calls st) ∧
  sent (poll_status st).1 = sent st ∧
  prev_server_statuses (poll_status st).1 = prev_server_statuses st.
Proof.
  intros Htok Hl Hbad.
  unfold poll_status, notify_if_license_inactive, mbind, M_bind, lift.
  rewrite (get_data_logged_in st token Htok Hl). simpl.
  rewrite (decoded_or_ill_formed _ _ Hbad). done.
Qed.

(** A Differ run whose servers GET failed after a good login empties the
    StatusMap without a message, so the poll after it has nothing to compare
    with and sends no transition alert, whatever the fleet looks like. *)
Theorem servers_failure_resets_statusmap (st : state) (token : string) :
  login_page (net (calls st)) = Some (Some token) →
  login_succeeds (net (calls st)) = true →
  ¬ well_formed (servers_response (net (calls st))) →
  (notify_server_status st).2 = Return tt ∧
  sent (notify_server_status st).1 = sent st ∧
  prev_server_statuses (notify_server_status st).1 = ∅ ∧
  ∀ current, Forall is_server_record current →
    sent (status_differ current (notify_server_status st).1).1 = sent st.
Proof.
  intros Htok Hl Hbad. unfold notify_server_status, mbind, M_bind.
  rewrite (get_data_logged_in st token Htok Hl). simpl.
  rewrite (decoded_or_ill_formed _ _ Hbad).
  rewrite (status_differ_records [] _ (List.Forall_nil _)). simpl.
  split; [done|]. split; [apply app_nil_r|]. split; [done|].
  intros current Hwf. rewrite (status_differ_records current _ Hwf). simpl.
  rewrite (flat_map_nil _ current)
    by (intros; apply transition_alerts_first_sighting).
  by rewrite !app_nil_r.
Qed.

(** ** The Differ on records that lack a key, and across polls *)

Lemma notify_loop_app_records good : ∀ back cs st,
  Forall is_server_record good →
  notify_loop (good ++ back) cs st =
  notify_loop back (fold_left record_status good cs)
    (posted st (flat_map (transition_alerts (prev_server_statuses st)) good)).
Proof.
  induction good as [|s rest IH]; intros back cs st Hwf.
  - simpl. by rewrite posted_nil.
  - apply Forall_cons in Hwf as [Hs Hrest]. simpl.
    unfold mbind at 1, M_bind. rewrite (notify_one_record s cs st Hs).
    rewrite (IH _ _ _ Hrest). simpl. by rewrite posted_posted.
Qed.

Lemma notify_one_nameless s cs st :
  s !! "name" = None →
  notify_one s cs st = (st, Raise (KeyError "name")).
Proof.
  intros Hn. unfold notify_one, mbind, M_bind, lift, getitem.
  by rewrite Hn.
Qed.

Lemma notify_one_unreported s cs st :
  is_Some (s !! "name") → s !! "health_status" = None →
  notify_one s cs st = (st, Raise (KeyError "health_status")).
Proof.
  intros [name Hn] Hh. unfold notify_one, mbind, M_bind, lift, getitem.
  rewrite Hn. simpl. by rewrite Hh.
Qed.

(** When a record of the fetched list lacks [name] or [health_status], the
    Differ raises [KeyError] there, for the first of the two keys that is
    missing ([name] is read first): the alerts of the records before it are
    already sent, the records after it are not looked at, and the StatusMap
    is not assigned, so the next poll compares with the old map again. *)
Theorem differ_aborts_on_malformed
  (good : list (gmap string string)) (bad : gmap string string)
  (rest : list (gmap string string)) (st : state) :
  Forall is_server_record good →
  ¬ is_server_record bad →
  (bad !! "name" = None →
   (status_differ (good ++ bad :: rest) st).2 = Raise (KeyError "name")) ∧
  (is_Some (bad !! "name") →
   bad !! "health_status" = None ∧
   (status_differ (good ++ bad :: rest) st).2 =
     Raise (KeyError "health_status")) ∧
  sent (status_differ (good ++ bad :: rest) st).1 =
    sent st ++ flat_map (transition_alerts (prev_server_statuses st)) good ∧
  prev_server_statuses (status_differ (good ++ bad :: rest) st).1 =
    prev_server_statuses st.
Proof.
  intros Hwf Hbad.
  assert (Hrun : ∀ key,
    notify_one bad (fold_left record_status good ∅)
      (posted st (flat_map
         (transition_alerts (prev_server_statuses st)) good)) =
    (posted st (flat_map
       (transition_alerts (prev_server_statuses st)) good),
     Raise (KeyError key)) →
    status_differ (good ++ bad :: rest) st =
    (posted st (flat_map
       (transition_alerts (prev_server_statuses st)) good),
     Raise (KeyError key))).
  { intros key Hone. unfold status_differ, mbind, M_bind.
    rewrite (notify_loop_app_records good _ _ _ Hwf). simpl.
    unfold mbind, M_bind. by rewrite Hone. }
  destruct (bad !! "name") as [name|] eqn:Hn.
  - assert (Hh : bad !! "health_status" = None).
    { destruct (bad !! "health_status") as [h|] eqn:Hh; [|done].
      exfalso. apply Hbad. split; by eexists. }
    rewrite (Hrun "health_status")
      by (apply notify_one_unreported; [by rewrite Hn|done]).
    simpl. by repeat split.
  - rewrite (Hrun "name") by by apply notify_one_nameless.
    simpl. by repeat split.
Qed.

(** The Differ remembers one poll only: the alerts of a poll are those of
    its list against the map of the list before it, so a server that was
    missing from the poll before sends nothing when it shows up again,
    whatever an older poll had recorded for it. *)
Theorem differ_compares_with_last_poll
  (earlier later : list (gmap string string)) (st : state) :
  Forall is_server_record earlier →
  Forall is_server_record later →
  sent (status_differ later (status_differ earlier st).1).1 =
    sent (status_differ earlier st).1
    ++ flat_map (transition_alerts (status_map earlier)) later ∧
  ∀ s name, s ∈ later → s !! "name" = Some name → name ∉ names earlier →
    transition_alerts (status_map earlier) s = [].
Proof.
  intros Hwf1 Hwf2. split.
  - rewrite (status_differ_records later _ Hwf2).
    by rewrite (status_differ_records earlier st Hwf1).
  - intros s name Hs Hn Hnot. unfold transition_alerts. rewrite Hn.
    destruct (s !! "health_status"); [|done].
    rewrite <- (dom_status_map earlier Hwf1) in Hnot.
    apply not_elem_of_dom in Hnot. by rewrite Hnot.
Qed.

Lemma notify_one_proper s cs st :
  ∃ msgs, (notify_one s cs st).1 = posted st msgs ∧
          Forall proper_alert msgs ∧ (length msgs ≤ 1)%nat.
Proof.
  unfold notify_one, mbind, M_bind, lift, getitem, read_prev.
  destruct (s !! "name") as [name|]; simpl;
    [|exists []; rewrite posted_nil; auto].
  destruct (s !! "health_status") as [new|]; simpl;
    [|exists []; rewrite posted_nil; auto].
  destruct (_ && _); simpl; [|exists []; rewrite posted_nil; auto].
  destruct (String.eqb_spec new "online") as [->|Hne]; simpl.
  - eexists. split; [done|]. split; [|simpl; lia].
    apply Forall_singleton. exists name, "online". by right.
  - eexists. split; [done|]. split; [|simpl; lia].
    apply Forall_singleton. exists name, new. by left.
Qed.

(** Whatever list it is given, the Differ sends at most one message per
    record, each to the alert channel in Markdown, and each either a
    DEGRADED alert naming a health other than "online" or a RECOVERED alert
    saying "online". *)
Theorem differ_sends_proper_alerts
  (current : list (gmap string string)) (st : state) :
  ∃ msgs,
    sent (status_differ current st).1 = sent st ++ msgs ∧
    (length msgs ≤ length current)%nat ∧
    Forall proper_alert msgs ∧
    Forall (λ m, chat_id m = telegram_chat_id ∧
                 parse_mode m = Some "Markdown") msgs.
Proof.
  assert (Hloop : ∀ l cs st0,
    ∃ msgs, (notify_loop l cs st0).1 = posted st0 msgs ∧
            Forall proper_alert msgs ∧ (length msgs ≤ length l)%nat).
  { induction l as [|s rest IH]; intros cs st0.
    - exists []. simpl. rewrite posted_nil. auto.
    - simpl. unfold mbind, M_bind.
      destruct (notify_one_proper s cs st0) as (m1 & H1 & F1 & L1).
      destruct (notify_one s cs st0) as [st1 [e|cs1]]; simpl in *; subst.
      + exists m1. split; [done|]. split; [done|lia].
      + destruct (IH cs1 (posted st0 m1)) as (m2 & H2 & F2 & L2).
        destruct (notify_loop rest cs1 (posted st0 m1)) as [st2 r2].
        simpl in *. subst. exists (m1 ++ m2). rewrite posted_posted.
        rewrite length_app.
        destruct r2; (split; [done|]); (split; [by apply Forall_app|lia]). }
  destruct (Hloop current ∅ st) as (msgs & H & F & L).
  exists msgs. unfold status_differ, mbind, M_bind.
  destruct (notify_loop current ∅ st) as [st1 [e|cs]]; simpl in *; subst;
    (split; [done|]); (split; [done|]); (split; [done|]);
    (eapply Forall_impl; [exact F|]);
    by intros m (name & status & [[_ ->] | ->]).
Qed.


(** ** The login test *)

Lemma substring_prefix (needle post : string) :
  substring 0 (String.length needle) (needle +:+ post) = needle.
Proof.
  induction needle as [|ch needle IH].
  - by destruct post.
  - rewrite string_app_cons. simpl. by rewrite IH.
Qed.

Lemma substring_infix (pre needle post : string) :
  substring (String.length pre) (String.length needle)
    (pre +:+ needle +:+ post) = needle.
Proof.
  induction pre as [|ch pre IH].
  - exact (substring_prefix needle post).
  - rewrite string_app_cons. simpl. apply IH.
Qed.

Lemma contains_infix (pre needle post : string) :
  needle ≠ "" → contains needle (pre +:+ needle +:+ post) = true.
Proof.
  intros Hne. unfold contains.
  destruct (index 0 needle (pre +:+ needle +:+ post)) eqn:E; [done|].
  exfalso.
  apply (index_correct3 0 (String.length pre)) in E; [|done|lia].
  apply E, substring_infix.
Qed.

(** [get_data] takes the login for successful as soon as the POST is
    answered with an ok status and the final URL has "dashboard" anywhere in
    it, be it in a query string of the login page; the body of the answer is
    not looked at.  It then goes on to fetch and returns the composite. *)
Theorem login_judged_by_url (st : state) (token pre post : string) :
  login_page (net (calls st)) = Some (Some token) →
  ok (login_reply (net (calls st))) = true →
  url (login_reply (net (calls st))) = pre +:+ "dashboard" +:+ post →
  login_succeeds (net (calls st)) = true ∧
  returns (get_data st).2 ∧
  (get_data st).2 ≠ Return None ∧
  ∃ lines, stdout (get_data st).1 = stdout st ++ "Login successful!" :: lines.
Proof.
  intros Htok Hok Hurl.
  assert (Hl : login_succeeds (net (calls st)) = true).
  { unfold login_succeeds. by rewrite Hok, Hurl, contains_infix. }
  rewrite (get_data_logged_in st token Htok Hl). simpl.
  split; [done|]. split; [by eexists|]. split; [done|]. by eexists.
Qed.

(** ** The scheduler *)

Lemma send_report_frame chat st :
  ∃ lines msgs,
    (send_report chat st).1 = posted (fetched st lines) msgs ∧
    Forall (λ m, chat_id m = chat) msgs.
Proof.
  unfold send_report, mbind, M_bind, lift.
  destruct (get_data_frame st) as [lines H].
  destruct (get_data st) as [st1 [e|[d|]]]; simpl in *; subst;
    try (exists lines, []; rewrite posted_nil; by auto).
  destruct (format_dashboard_stats (dashboard d)) as [e|a]; simpl;
    [exists lines, []; rewrite posted_nil; by auto|].
  destruct (format_servers_info (servers d)) as [e|b]; simpl;
    [exists lines, []; rewrite posted_nil; by auto|].
  eexists lines, _. split; [done|]. by apply Forall_singleton.
Qed.

Lemma handle_frame e st :
  ∃ lines msgs k m,
    (handle e st).1 =
      {| prev_server_statuses := m;
         stdout := stdout st ++ lines;
         sent := sent st ++ msgs;
         calls := calls st + k |} ∧
    (fewest_fetches e ≤ k ≤ most_fetches e)%nat ∧
    Forall (λ msg, chat_id msg = telegram_chat_id ∨
                   requester e = Some (chat_id msg)) msgs ∧
    (e ≠ Tick → m = prev_server_statuses st).
Proof.
  destruct e as [|chat|chat]; simpl.
  - destruct (license_check_frame st) as (l1 & m1 & H1 & Hm1).
    assert (F1 : Forall (λ msg, chat_id msg = telegram_chat_id ∨
                                None = Some (chat_id msg)) m1).
    { destruct Hm1 as [-> | ->]; [constructor|].
      apply Forall_singleton. by left. }
    destruct (notify_if_license_inactive st) as [st1 r1] eqn:Hlic.
    simpl in H1. subst st1. destruct r1 as [e|[]].
    + rewrite (poll_license_raises st e) by by rewrite Hlic.
      rewrite Hlic. simpl.
      exists l1, m1, 1, (prev_server_statuses st).
      split; [by rewrite Nat.add_1_r|]. split; [lia|]. by split.
    + rewrite poll_after_license by by rewrite Hlic.
      rewrite Hlic. simpl.
      destruct (notify_server_status_frame (posted (fetched st l1) m1))
        as (l2 & m2 & sm & H2 & F2).
      rewrite H2. exists (l1 ++ l2), (m1 ++ m2), 2, sm. simpl.
      split; [by rewrite !app_assoc, Nat.add_comm|]. split; [lia|].
      split; [|done]. apply Forall_app. split; [done|].
      eapply Forall_impl; [exact F2|].
      intros msg (name & status & [-> | ->]); by left.
  - destruct (send_report_frame chat st) as (lines & msgs & H & F).
    rewrite H. exists lines, msgs, 1, (prev_server_statuses st). simpl.
    split; [by rewrite Nat.add_1_r|]. split; [lia|]. split; [|done].
    eapply Forall_impl; [exact F|]. intros msg <-. by right.
  - eexists [], _, 0, (prev_server_statuses st). unfold start. simpl.
    split; [by rewrite app_nil_r, Nat.add_0_r|]. split; [lia|].
    split; [|done]. apply Forall_singleton. by right.
Qed.

Lemma run_cons e rest st : run (e :: rest) st = run rest (handle e st).1.
Proof. reflexivity. Qed.

Lemma run_frame events : ∀ st,
  ∃ lines msgs k m,
    run events st =
      {| prev_server_statuses := m;
         stdout := stdout st ++ lines;
         sent := sent st ++ msgs;
         calls := calls st + k |} ∧
    (sum_list_with fewest_fetches events ≤ k
     ≤ sum_list_with most_fetches events)%nat ∧
    Forall (λ msg, chat_id msg = telegram_chat_id ∨
                   Some (chat_id msg) ∈ requester <$> events) msgs ∧
    (Tick ∉ events → m = prev_server_statuses st).
Proof.
  induction events as [|e rest IH]; intros st.
  - exists [], [], 0, (prev_server_statuses st). simpl.
    rewrite !app_nil_r, Nat.add_0_r. by destruct st.
  - rewrite run_cons.
    destruct (handle_frame e st) as (l1 & m1 & k1 & sm1 & H1 & K1 & F1 & P1).
    rewrite H1.
    destruct (IH {| prev_server_statuses := sm1;
                    stdout := stdout st ++ l1;
                    sent := sent st ++ m1;
                    calls := calls st + k1 |})
      as (l2 & m2 & k2 & sm2 & H2 & K2 & F2 & P2).
    rewrite H2. simpl. exists (l1 ++ l2), (m1 ++ m2), (k1 + k2), sm2.
    split; [by rewrite !app_assoc, Nat.add_assoc|]. split; [lia|]. split.
    + apply Forall_app. split.
      * eapply Forall_impl; [exact F1|]. intros msg [?|Hr]; [by left|].
        right. rewrite Hr. by left.
      * eapply Forall_impl; [exact F2|]. intros msg [?|Hr]; [by left|].
        right. by right.
    + intros Hnot. apply not_elem_of_cons in Hnot as [Hne Hrest].
      rewrite (P2 Hrest). apply P1. congruence.
Qed.

(** The bot writes to two kinds of chats only: whatever events it serves,
    every message it sends goes to the configured alert channel or to the
    chat one of the served commands came from. *)
Theorem run_destinations (events : list event) (st : state) :
  ∃ msgs,
    sent (run events st) = sent st ++ msgs ∧
    Forall (λ msg, chat_id msg = telegram_chat_id ∨
                   Some (chat_id msg) ∈ requester <$> events) msgs.
Proof.
  destruct (run_frame events st) as (lines & msgs & k & m & H & _ & F & _).
  exists msgs. by rewrite H.
Qed.

(** Every served event logs in afresh: a timer tick calls the Fetcher once
    or twice, a /status command once, /start never, so the number of login
    sessions opened over a run lies between these sums; the diagnostic
    stream only grows. *)
Theorem run_fetches (events : list event) (st : state) :
  (calls st + sum_list_with fewest_fetches events ≤ calls (run events st))%nat ∧
  (calls (run events st) ≤ calls st + sum_list_with most_fetches events)%nat ∧
  ∃ lines, stdout (run events st) = stdout st ++ lines.
Proof.
  destruct (run_frame events st) as (lines & msgs & k & m & H & K & _ & _).
  rewrite H. simpl. split; [lia|]. split; [lia|]. by exists lines.
Qed.

(** Only the timer moves the StatusMap: a run of /status and /start
    commands, however long, leaves it exactly as it was. *)
Theorem commands_leave_statusmap (events : list event) (st : state) :
  Tick ∉ events →
  prev_server_statuses (run events st) = prev_server_statuses st.
Proof.
  intros Hnot.
  destruct (run_frame events st) as (lines & msgs & k & m & H & _ & _ & P).
  rewrite H. simpl. by apply P.
Qed.


(** ** The license check and the login page *)

(** The license check neither reads nor writes the StatusMap: it leaves it
    as it was, runs the same under any other StatusMap, and sends nothing
    or the one license alert. *)
Theorem license_check_ignores_statusmap (st : state) :
  prev_server_statuses (notify_if_license_inactive st).1 =
    prev_server_statuses st ∧
  (∀ m, notify_if_license_inactive (with_statuses m st) =
        (with_statuses m (notify_if_license_inactive st).1,
         (notify_if_license_inactive st).2)) ∧
  (sent (notify_if_license_inactive st).1 = sent st ∨
   sent (notify_if_license_inactive st).1 = sent st ++ [license_alert]).
Proof.
  split; [|split].
  - destruct (license_check_frame st) as (l & m & H & _). by rewrite H.
  - intros m. unfold notify_if_license_inactive, mbind, M_bind, lift.
    rewrite get_data_with_statuses.
    destruct (get_data st) as [st1 [e|[d|]]]; simpl; try done.
    destruct (getitem (dashboard d) "license") as [e|license]; simpl; [done|].
    destruct (getitem license "status") as [e|status]; simpl; [done|].
    by destruct (negb _).
  - destruct (license_check_frame st) as (l & m & H & [-> | ->]);
      rewrite H; simpl; [left; apply app_nil_r | by right].
Qed.

(** When the login page carries no [_token] input, [get_data] raises
    [TypeError] before it posts anything: nothing is printed, not even
    "Login failed.", and each caller is aborted by it -- the poll cycle in
    its license check after a single call, without reaching the Differ,
    and the /status request without a reply. *)
Theorem missing_token_aborts (chat : Z) (st : state) :
  login_page (net (calls st)) = None →
  (∃ what, (get_data st).2 = Raise (TypeError what)) ∧
  stdout (get_data st).1 = stdout st ∧
  (∃ what, (poll_status st).2 = Raise (TypeError what)) ∧
  calls (poll_status st).1 = S (calls st) ∧
  sent (poll_status st).1 = sent st ∧
  prev_server_statuses (poll_status st).1 = prev_server_statuses st ∧
  (∃ what, (send_report chat st).2 = Raise (TypeError what)) ∧
  sent (send_report chat st).1 = sent st.
Proof.
  intros Hp.
  unfold poll_status, notify_if_license_inactive, send_report, mbind, M_bind.
  rewrite (get_data_no_token_input st Hp). simpl.
  rewrite app_nil_r. repeat split; try done; by eexists.
Qed.

End Bot.

(** * The claims on sample runs *)

Section Samples.

Import Sample.

Local Ltac records :=
  repeat first
    [ apply List.Forall_nil
    | apply List.Forall_cons; [split; eexists; reflexivity|] ].

Local Ltac distinct_names :=
  apply agreeing_distinct; apply (bool_decide_unpack _); vm_compute; reflexivity.

(** The three transition cases of the specification, run. *)
Example transition_correctness :
  sent (status_differ alerts_chat [srv "A" "offline"]
          (with_prev {[ "A" := "online" ]})).1 =
  [degraded_alert alerts_chat "A" "offline"].
Proof. by vm_compute. Qed.

Example recovery_correctness :
  sent (status_differ alerts_chat [srv "A" "online"]
          (with_prev {[ "A" := "offline" ]})).1 =
  [recovered_alert alerts_chat "A" "online"].
Proof. by vm_compute. Qed.

Example no_change :
  sent (status_differ alerts_chat [srv "A" "online"]
          (with_prev {[ "A" := "online" ]})).1 = [].
Proof. by vm_compute. Qed.

(** C1, on the sample fleet: "A" went offline, "B" came back, "C" is new. *)
Lemma differ_emits_transitions_witness :
  prev_server_statuses (with_prev seen_before) = seen_before ∧
  Forall is_server_record fleet ∧
  ∃ emitted,
    (status_differ alerts_chat fleet (with_prev seen_before)).2 = Return tt ∧
    sent (status_differ alerts_chat fleet (with_prev seen_before)).1 =
      sent (with_prev seen_before) ++ concat emitted ∧
    Forall2 (emits alerts_chat seen_before) fleet emitted.
Proof.
  split; [reflexivity|]. split; [records|].
  apply (differ_emits_transitions alerts_chat seen_before fleet
           (with_prev seen_before)); [reflexivity|records].
Defined.

(** C4 as stated fails on [twins]: after the first poll the name "A" of the
    first record is mapped to "offline", not to that record's "online". *)
Lemma first_poll_twins_counterexample :
  prev_server_statuses (with_prev ∅) = ∅ ∧
  srv "A" "online" ∈ twins ∧
  srv "A" "online" !! "name" = Some "A" ∧
  srv "A" "online" !! "health_status" = Some "online" ∧
  prev_server_statuses (status_differ alerts_chat twins (with_prev ∅)).1 !! "A"
    = Some "offline" ∧
  prev_server_statuses (status_differ alerts_chat twins (with_prev ∅)).1 !! "A"
    ≠ srv "A" "online" !! "health_status".
Proof.
  split; [reflexivity|]. split; [by left|].
  split; [reflexivity|]. split; [reflexivity|].
  split; [by vm_compute|]. by vm_compute.
Qed.

(** C4, amended, on the sample fleet. *)
Lemma first_poll_populates_witness :
  prev_server_statuses (with_prev ∅) = ∅ ∧
  Forall is_server_record fleet ∧
  agreeing fleet ∧
  sent (status_differ alerts_chat fleet (with_prev ∅)).1 = [] ∧
  dom (prev_server_statuses (status_differ alerts_chat fleet (with_prev ∅)).1)
    = names fleet ∧
  ∀ s name health, s ∈ fleet →
    s !! "name" = Some name → s !! "health_status" = Some health →
    prev_server_statuses (status_differ alerts_chat fleet (with_prev ∅)).1
      !! name = Some health.
Proof.
  split; [reflexivity|]. split; [records|]. split; [distinct_names|].
  destruct (first_poll_populates alerts_chat fleet (with_prev ∅))
    as (_ & Hsent & Hdom & _ & Hmap); [reflexivity|records|].
  split; [exact Hsent|]. split; [exact Hdom|].
  apply Hmap. distinct_names.
Defined.

(** C5, on a poll that finds the sample fleet: "D" is dropped silently. *)
Lemma statusmap_replaced_witness :
  delivers (healthy "Active" fleet) fleet ∧
  Forall is_server_record fleet ∧
  prev_server_statuses
    (notify_server_status alerts_chat (λ _, healthy "Active" fleet)
       (with_prev seen_before)).1 = status_map fleet ∧
  dom (prev_server_statuses
         (notify_server_status alerts_chat (λ _, healthy "Active" fleet)
            (with_prev seen_before)).1) = names fleet.
Proof.
  assert (Hdel : delivers (healthy "Active" fleet) fleet).
  { split; [by eexists|]. split; reflexivity. }
  split; [exact Hdel|]. split; [records|].
  destruct (statusmap_replaced alerts_chat (λ _, healthy "Active" fleet)
              fleet (with_prev seen_before))
    as (_ & Hmap & Hdom & _); [exact Hdel|records|].
  split; [exact Hmap|exact Hdom].
Defined.

(** C6 as stated fails on [twins]: the first poll leaves the map of the
    names of [twins] to their health, and the second poll on the same list
    sends a RECOVERED alert. *)
Lemma differ_twins_counterexample :
  prev_server_statuses (status_differ alerts_chat twins (with_prev ∅)).1 =
    status_map twins ∧
  sent (status_differ alerts_chat twins (with_prev ∅)).1 = [] ∧
  sent (status_differ alerts_chat twins
          (status_differ alerts_chat twins (with_prev ∅)).1).1 =
    [recovered_alert alerts_chat "A" "online"].
Proof. split; [by vm_compute|]. split; by vm_compute. Qed.

(** C6, amended, on the sample fleet. *)
Lemma differ_idempotent_witness :
  Forall is_server_record fleet ∧
  agreeing fleet ∧
  prev_server_statuses (with_prev (status_map fleet)) = status_map fleet ∧
  sent (status_differ alerts_chat fleet (with_prev (status_map fleet))).1 =
    sent (with_prev (status_map fleet)).
Proof.
  split; [records|]. split; [distinct_names|]. split; [reflexivity|].
  apply (differ_idempotent alerts_chat fleet (with_prev (status_map fleet)));
    [records|distinct_names|reflexivity].
Defined.

(** C8, on a login that is rejected. *)
Lemma login_failure_skips_differ_witness :
  (get_data (λ _, login_failed) (with_prev seen_before)).2 = Return None ∧
  sent (notify_server_status alerts_chat (λ _, login_failed)
          (with_prev seen_before)).1 = [] ∧
  prev_server_statuses
    (notify_server_status alerts_chat (λ _, login_failed)
       (with_prev seen_before)).1 = seen_before.
Proof.
  split; [reflexivity|].
  destruct (login_failure_skips_differ alerts_chat (λ _, login_failed)
              (with_prev seen_before))
    as (_ & Hsent & Hprev & _); [reflexivity|].
  split; [exact Hsent|exact Hprev].
Defined.

(** C3 as stated fails when the servers GET answers 500 after a good
    login: the Fetcher returns the composite with an empty server list,
    not its failure signal; and a dashboard GET answering 500 returns what
    a dashboard GET answering [{}] returns. *)
Lemma get_data_partial_counterexample :
  login_succeeds servers_down = true ∧
  status_code (servers_response servers_down) = 500%Z ∧
  ¬ well_formed (servers_response servers_down) ∧
  (get_data (λ _, servers_down) initial_state).2 =
    Return (Some {| dashboard := stats "Active"; servers := [] |}) ∧
  (get_data (λ _, servers_down) initial_state).2 ≠ Return None ∧
  ¬ well_formed (dashboard_response dashboard_down) ∧
  well_formed (dashboard_response dashboard_empty) ∧
  (get_data (λ _, dashboard_down) initial_state).2 =
  (get_data (λ _, dashboard_empty) initial_state).2.
Proof.
  split; [reflexivity|]. split; [reflexivity|].
  split; [by intros [? _]|]. split; [reflexivity|]. split; [done|].
  split; [by intros [? _]|]. split; [by split; [|eexists]|]. reflexivity.
Qed.

(** C3, amended, on that exchange. *)
Lemma get_data_result_witness :
  login_page servers_down = Some (Some "tok") ∧
  (get_data (λ _, servers_down) initial_state).2 =
    Return (Some {| dashboard := decoded_or ∅ (dashboard_response servers_down);
                    servers := decoded_or [] (servers_response servers_down) |}) ∧
  decoded_or [] (servers_response servers_down) = [].
Proof.
  split; [reflexivity|].
  destruct (get_data_result (λ _, servers_down) initial_state "tok")
    as (Hok & _ & _ & _ & Hservers & _); [reflexivity|].
  split; [by apply Hok|]. apply Hservers. by intros [? _].
Defined.

(** C2 as stated fails when the servers GET answers 500 after a good
    login: the cycle ends normally and the StatusMap is emptied. *)
Lemma servers_error_wipes_statusmap_counterexample :
  login_succeeds servers_down = true ∧
  ¬ well_formed (servers_response servers_down) ∧
  (poll_status alerts_chat (λ _, servers_down) (with_prev seen_before)).2 =
    Return tt ∧
  prev_server_statuses (with_prev seen_before) !! "A" = Some "online" ∧
  prev_server_statuses
    (poll_status alerts_chat (λ _, servers_down) (with_prev seen_before)).1
    = ∅.
Proof.
  split; [reflexivity|]. split; [by intros [? _]|].
  split; [by vm_compute|]. split; by vm_compute.
Qed.

(** C2, amended, on a cycle whose two logins are rejected. *)
Lemma login_failure_keeps_statusmap_witness :
  fails_login login_failed ∧
  (poll_status alerts_chat (λ _, login_failed) (with_prev seen_before)).2 =
    Return tt ∧
  prev_server_statuses
    (poll_status alerts_chat (λ _, login_failed) (with_prev seen_before)).1
    = seen_before ∧
  sent (poll_status alerts_chat (λ _, login_failed) (with_prev seen_before)).1
    = [].
Proof.
  assert (Hfail : fails_login login_failed).
  { split; [by eexists|reflexivity]. }
  split; [exact Hfail|].
  destruct (proj1 (login_failure_keeps_statusmap alerts_chat (λ _, login_failed))
              (with_prev seen_before) Hfail Hfail)
    as (Hret & Hprev & Hsent & _).
  split; [exact Hret|]. split; [exact Hprev|exact Hsent].
Defined.


(** C9 as stated fails when the dashboard GET of the license check answers
    500: the license check raises [KeyError] on the empty dashboard and the
    cycle ends after a single call of the Fetcher. *)
Lemma poll_single_fetch_counterexample :
  login_succeeds dashboard_down = true ∧
  status_code (dashboard_response dashboard_down) = 500%Z ∧
  (poll_status alerts_chat (λ _, dashboard_down) initial_state).2 =
    Raise (KeyError "license") ∧
  calls initial_state = 0 ∧
  calls (poll_status alerts_chat (λ _, dashboard_down) initial_state).1 = 1.
Proof.
  split; [reflexivity|]. split; [reflexivity|].
  split; [by vm_compute|]. split; [reflexivity|by vm_compute].
Qed.

(** C9, amended, on a cycle whose first fetch shows a suspended license and
    an empty fleet and whose second fetch shows the sample fleet. *)
Lemma poll_fetches_per_half_witness :
  calls (poll_status alerts_chat
           (λ n, match n with
                 | 0 => healthy "Suspended" []
                 | _ => healthy "Active" fleet
                 end) (with_prev seen_before)).1 = 2 ∧
  sent (poll_status alerts_chat
          (λ n, match n with
                | 0 => healthy "Suspended" []
                | _ => healthy "Active" fleet
                end) (with_prev seen_before)).1 =
    [license_alert alerts_chat;
     degraded_alert alerts_chat "A" "offline";
     recovered_alert alerts_chat "B" "online"] ∧
  prev_server_statuses
    (poll_status alerts_chat
       (λ n, match n with
             | 0 => healthy "Suspended" []
             | _ => healthy "Active" fleet
             end) (with_prev seen_before)).1 = status_map fleet.
Proof.
  pose proof (poll_fetches_per_half alerts_chat
                (λ n, match n with
                      | 0 => healthy "Suspended" []
                      | _ => healthy "Active" fleet
                      end)) as (_ & Htwice & Hboth & _).
  split.
  - apply Htwice. by vm_compute.
  - destruct (Hboth (with_prev seen_before) "Suspended" fleet)
      as (_ & Hsent & Hprev).
    + exists "tok", {[ "status" := "Suspended"; "product_name" := "1-Stream" ]}.
      split; [reflexivity|]. split; [reflexivity|].
      split; [by vm_compute|reflexivity].
    + split; [by eexists|]. split; reflexivity.
    + records.
    + split; [|exact Hprev]. rewrite Hsent. by vm_compute.
Defined.


(** ** The further properties on sample runs *)

Lemma report_raises_without_dashboard_witness :
  ¬ well_formed (dashboard_response dashboard_down) ∧
  (send_report (λ _, dashboard_down) 7 (with_prev seen_before)).2 =
    Raise (KeyError "connections") ∧
  sent (send_report (λ _, dashboard_down) 7 (with_prev seen_before)).1 = [].
Proof.
  assert (Hbad : ¬ well_formed (dashboard_response dashboard_down)).
  { by intros [? _]. }
  split; [exact Hbad|].
  destruct (report_raises_without_dashboard (λ _, dashboard_down) 7
              (with_prev seen_before) "tok")
    as (Hr & Hs & _); [reflexivity|reflexivity|exact Hbad|].
  split; [exact Hr|exact Hs].
Defined.

Lemma report_after_failed_servers_fetch_witness :
  ¬ well_formed (servers_response servers_down) ∧
  ∃ dashboard_text,
    format_dashboard_stats (stats "Active") = Return dashboard_text ∧
    sent (send_report (λ _, servers_down) 7 initial_state).1 =
      [Message 7 (dashboard_text +:+ servers_header) markdown].
Proof.
  assert (Hbad : ¬ well_formed (servers_response servers_down)).
  { by intros [? _]. }
  split; [exact Hbad|].
  destruct (format_dashboard_stats (stats "Active")) as [e|txt] eqn:E;
    [by vm_compute in E|].
  exists txt. split; [reflexivity|].
  apply (report_after_failed_servers_fetch (λ _, servers_down) 7
           initial_state "tok" txt);
    [reflexivity|reflexivity|exact Hbad|exact E].
Defined.

Lemma poll_aborts_without_dashboard_witness :
  ¬ well_formed (dashboard_response dashboard_down) ∧
  (poll_status alerts_chat (λ _, dashboard_down) (with_prev seen_before)).2 =
    Raise (KeyError "license") ∧
  prev_server_statuses
    (poll_status alerts_chat (λ _, dashboard_down) (with_prev seen_before)).1 =
    seen_before.
Proof.
  assert (Hbad : ¬ well_formed (dashboard_response dashboard_down)).
  { by intros [? _]. }
  split; [exact Hbad|].
  destruct (poll_aborts_without_dashboard alerts_chat (λ _, dashboard_down)
              (with_prev seen_before) "tok")
    as (Hr & _ & _ & Hp); [reflexivity|reflexivity|exact Hbad|].
  split; [exact Hr|exact Hp].
Defined.

Lemma servers_failure_resets_statusmap_witness :
  ¬ well_formed (servers_response servers_down) ∧
  prev_server_statuses
    (notify_server_status alerts_chat (λ _, servers_down)
       (with_prev seen_before)).1 = ∅ ∧
  sent (status_differ alerts_chat fleet
          (notify_server_status alerts_chat (λ _, servers_down)
             (with_prev seen_before)).1).1 = [].
Proof.
  assert (Hbad : ¬ well_formed (servers_response servers_down)).
  { by intros [? _]. }
  split; [exact Hbad|].
  destruct (servers_failure_resets_statusmap alerts_chat (λ _, servers_down)
              (with_prev seen_before) "tok")
    as (_ & _ & Hp & Hnext); [reflexivity|reflexivity|exact Hbad|].
  split; [exact Hp|]. apply Hnext. records.
Defined.

Lemma differ_aborts_on_malformed_witness :
  Forall is_server_record [srv "A" "offline"] ∧
  ¬ is_server_record unreported ∧
  (status_differ alerts_chat
     ([srv "A" "offline"] ++ unreported :: [srv "C" "online"])
     (with_prev seen_before)).2 = Raise (KeyError "health_status") ∧
  sent (status_differ alerts_chat
          ([srv "A" "offline"] ++ unreported :: [srv "C" "online"])
          (with_prev seen_before)).1 =
    [degraded_alert alerts_chat "A" "offline"] ∧
  prev_server_statuses
    (status_differ alerts_chat
       ([srv "A" "offline"] ++ unreported :: [srv "C" "online"])
       (with_prev seen_before)).1 = seen_before.
Proof.
  assert (Hbad : ¬ is_server_record unreported).
  { intros [_ [h Hh]]. by vm_compute in Hh. }
  split; [records|]. split; [exact Hbad|].
  destruct (differ_aborts_on_malformed alerts_chat [srv "A" "offline"]
              unreported [srv "C" "online"] (with_prev seen_before))
    as (_ & Hkey & Hs & Hp); [records|exact Hbad|].
  split; [apply Hkey; by eexists|].
  split; [|exact Hp]. rewrite Hs. by vm_compute.
Defined.

Lemma differ_compares_with_last_poll_witness :
  Forall is_server_record [srv "A" "online"] ∧
  Forall is_server_record fleet ∧
  sent (status_differ alerts_chat fleet
          (status_differ alerts_chat [srv "A" "online"]
             (with_prev seen_before)).1).1 =
    [degraded_alert alerts_chat "A" "offline"].
Proof.
  split; [records|]. split; [records|].
  destruct (differ_compares_with_last_poll alerts_chat [srv "A" "online"]
              fleet (with_prev seen_before)) as [Hs _]; [records|records|].
  rewrite Hs. by vm_compute.
Defined.

Lemma login_judged_by_url_witness :
  ok (login_reply bounced) = true ∧
  url (login_reply bounced) = "https://panel.example/login?next=/" +:+ "dashboard" +:+ "" ∧
  (get_data (λ _, bounced) initial_state).2 ≠ Return None.
Proof.
  split; [reflexivity|]. split; [reflexivity|].
  destruct (login_judged_by_url (λ _, bounced) initial_state "tok"
              "https://panel.example/login?next=/" "")
    as (_ & _ & Hr & _); [reflexivity|reflexivity|reflexivity|].
  exact Hr.
Defined.

Lemma commands_leave_statusmap_witness :
  (Tick ∉ [StatusCommand 7; StartCommand 8]) ∧
  prev_server_statuses
    (run alerts_chat (λ _, healthy "Suspended" fleet)
       [StatusCommand 7; StartCommand 8] (with_prev seen_before)) =
    seen_before.
Proof.
  assert (Hnot : Tick ∉ [StatusCommand 7; StartCommand 8]).
  { intros H. apply elem_of_cons in H as [?|H]; [done|].
    apply elem_of_cons in H as [?|H]; [done|]. by apply elem_of_nil in H. }
  split; [exact Hnot|].
  exact (commands_leave_statusmap alerts_chat (λ _, healthy "Suspended" fleet)
           [StatusCommand 7; StartCommand 8] (with_prev seen_before) Hnot).
Defined.


Lemma missing_token_aborts_witness :
  login_page tokenless = None ∧
  calls (poll_status alerts_chat (λ _, tokenless) (with_prev seen_before)).1
    = 1 ∧
  stdout (get_data (λ _, tokenless) (with_prev seen_before)).1 = [].
Proof.
  split; [reflexivity|].
  destruct (missing_token_aborts alerts_chat (λ _, tokenless) 7
              (with_prev seen_before))
    as (_ & Hout & _ & Hcalls & _); [reflexivity|].
  split; [exact Hcalls|exact Hout].
Defined.


(** C10 as stated fails when the servers GET answers 500 after a good
    login: the fetch has failed, and the request is still answered with one
    message. *)
Lemma status_reply_after_failed_fetch_counterexample :
  login_succeeds servers_down = true ∧
  status_code (servers_response servers_down) = 500%Z ∧
  ¬ well_formed (servers_response servers_down) ∧
  ∃ reply,
    sent (send_report (λ _, servers_down) 7 (with_prev seen_before)).1 =
      [reply] ∧
    chat_id reply = 7%Z.
Proof.
  split; [reflexivity|]. split; [reflexivity|]. split; [by intros [? _]|].
  eexists. split; [vm_compute; reflexivity|reflexivity].
Qed.

(** C10, amended, on a login that is rejected. *)
Lemma status_request_frame_witness :
  fails_login login_failed ∧
  (send_report (λ _, login_failed) 7 (with_prev seen_before)).2 = Return tt ∧
  sent (send_report (λ _, login_failed) 7 (with_prev seen_before)).1 = [] ∧
  prev_server_statuses
    (send_report (λ _, login_failed) 7 (with_prev seen_before)).1 =
    seen_before.
Proof.
  assert (Hfail : fails_login login_failed).
  { split; [by eexists|reflexivity]. }
  split; [exact Hfail|].
  destruct (status_request_frame (λ _, login_failed) 7 (with_prev seen_before))
    as (Hprev & _ & Hlogin & _).
  destruct (Hlogin Hfail) as [Hret Hsent].
  split; [exact Hret|]. split; [exact Hsent|exact Hprev].
Defined.

End Samples.
